(** * The search handler of camlistore's [pkg/search]

    A shallow embedding of [pkg/search/handler.go]: the request
    sanitizers, the HTTP dispatcher, the streaming query adapters, the
    claims accessor, the inbound-edge verifier and the named-search
    alias manager, with the properties the specification states about
    them.

    Go's [int] is modelled as [Z] (none of the embedded functions does
    arithmetic that could wrap), [string] as [string], [[]T] as [list T],
    [map[string]T] as [gmap string T].  A Go function returning
    [(T, error)] returns an [outcome T]; a [panic] is the third case. *)

From Stdlib Require Import ZArith List Sorting.Sorted Sorting.Permutation.
From stdpp Require Import base option list gmap strings fin_maps.

Open Scope string_scope.
Open Scope Z_scope.
Open Scope list_scope.

(** ** Basic types *)

Definition error := string.

Inductive outcome (T : Type) : Type :=
| ok (v : T)
| err (e : error)
| panic (e : error).
Arguments ok {T} v.
Arguments err {T} e.
Arguments panic {T} e.

(** Modelled from the spec: [blob.Ref] (package blob lies outside
    handler.go) is an opaque content hash; the zero value is the one
    invalid ref. *)
Inductive Ref : Type :=
| ZeroRef
| Sha1Ref (hex : string).

#[global] Instance Ref_eq_dec : EqDecision Ref.
Proof. solve_decision. Defined.

(** Modelled from the spec: [Ref.Valid] tells the zero ref from the
    others, [Ref.String] prints the hash and prints the zero ref as the
    empty string. *)
Module blob.
Definition Valid (r : Ref) : bool :=
  match r with ZeroRef => false | Sha1Ref _ => true end.

Definition String (r : Ref) : string :=
  match r with ZeroRef => "" | Sha1Ref h => String.append "sha1-" h end.
End blob.

(** [time.Time] as a count of nanoseconds; the zero time is [0]. *)
Definition Time := Z.
Definition IsZero (t : Time) : bool := (t =? 0).

(** ** Constants of handler.go *)

Definition buffered : Z := 32.
Definition maxResults : Z := 1000.
Definition defaultNumResults : Z := 50.
Definition minThumbSize : Z := 25.
Definition defThumbSize : Z := 50.
Definition maxThumbSize : Z := 800.

(** ** HTTP requests *)

Record Request := {
  Method : string;
  (** what [httputil.PathSuffix] returns for the request *)
  PathSuffix : string;
  Form : gmap string string;
  Body : string
}.

(** [req.FormValue(k)]: the empty string when the key is absent. *)
Definition FormValue (req : Request) (k : string) : string :=
  default "" (Form req !! k).

Fixpoint HasPrefix (s p : string) {struct p} : bool :=
  match p, s with
  | EmptyString, _ => true
  | String c p', String d s' => if Ascii.eqb c d then HasPrefix s' p' else false
  | String _ _, EmptyString => false
  end.

Fixpoint dropString (n : nat) (s : string) : string :=
  match n, s with
  | O, _ => s
  | S n', String _ s' => dropString n' s'
  | S _, EmptyString => EmptyString
  end.

Definition TrimPrefix (s p : string) : string :=
  if HasPrefix s p then dropString (String.length p) s else s.

Definition HasSuffix (s p : string) : bool :=
  HasPrefix (String.rev s) (String.rev p).

(** ** sanitizeNumResults and the thumbnail sizes *)

Definition sanitizeNumResults (n : Z) : Z :=
  if (n <=? 0) || (n >? maxResults) then defaultNumResults else n.

Section Thumbnails.
(** [strconv.Atoi] of the Go library: the value and the error. *)
Variable Atoi : string -> Z * option error.

Definition thumbnailSizeStr (s : string) : Z :=
  if String.eqb s "" then 0
  else
    let i := fst (Atoi s) in
    if (i >=? minThumbSize) && (i <=? maxThumbSize) then i
    else defThumbSize.

Definition thumbnailSize (r : Request) : Z :=
  thumbnailSizeStr (FormValue r "thumbnails").
End Thumbnails.

Module RecentRequest.
Record t := {
  N : Z;
  Before : Time;
  ThumbnailSize : Z
}.

Section FromHTTP.
Variable Atoi : string -> Z * option error.
(** [types.ParseTime3339OrZero] *)
Variable ParseTime3339OrZero : string -> Time.

Definition fromHTTP (req : Request) : t :=
  let before := FormValue req "before" in
  {| N := fst (Atoi (FormValue req "n"));
     ThumbnailSize := thumbnailSize Atoi req;
     Before := if String.eqb before "" then 0
               else ParseTime3339OrZero before |}.
End FromHTTP.

Definition n (r : t) : Z := sanitizeNumResults (N r).

Definition thumbnailSize (r : t) : Z :=
  let v := ThumbnailSize r in
  if v =? 0 then 0
  else if (v <? minThumbSize) || (v >? maxThumbSize) then defThumbSize
  else v.
End RecentRequest.

Module WithAttrRequest.
Record t := {
  N : Z;
  Signer : Ref;
  Attr : string;
  Value : string;
  Fuzzy : bool;
  ThumbnailSize : Z
}.

Definition n (r : t) : Z := sanitizeNumResults (N r).

Section FromHTTP.
Variable Atoi : string -> Z * option error.
(** [blob.ParseOrZero] and [strings.ToLower] *)
Variable ParseOrZero : string -> Ref.
Variable ToLower : string -> string.

(** [httputil.InvalidParameterError("max")], the value of the panic. *)
Definition InvalidParameterError (p : string) : error :=
  String.append "invalid parameter: " p.

Definition fromHTTP (req : Request) : outcome t :=
  let fuzzy := FormValue req "fuzzy" in
  let lowered := ToLower fuzzy in
  let fuzzyMatch0 :=
    if String.eqb fuzzy "" then false
    else String.eqb lowered "true" || String.eqb lowered "t" in
  let attr := FormValue req "attr" in
  let fuzzyMatch := if String.eqb attr "" then true else fuzzyMatch0 in
  let max := FormValue req "max" in
  let mk (rn : Z) :=
    {| Signer := ParseOrZero (FormValue req "signer");
       Value := FormValue req "value";
       Attr := attr;
       Fuzzy := fuzzyMatch;
       ThumbnailSize := thumbnailSize Atoi req;
       N := rn |} in
  if String.eqb max "" then ok (mk (n (mk 0)))
  else
    match Atoi max with
    | (_, Some _) => panic (InvalidParameterError "max")
    | (maxR, None) => ok (mk (n (mk maxR)))
    end.
End FromHTTP.

Definition thumbnailSize (r : t) : Z :=
  let v := ThumbnailSize r in
  if v =? 0 then 0
  else if v <? minThumbSize then minThumbSize
  else if v >? maxThumbSize then maxThumbSize
  else v.
End WithAttrRequest.

(** ** ServeHTTP: dispatch by method and path suffix *)

Inductive Endpoint : Type :=
| serveWebSocket | serveRecentPermanodes | servePermanodesWithAttr
| serveDescribe | serveClaims | serveFiles | serveGetNamed
| serveSignerAttrValue | serveSignerPaths | serveEdgesTo
| serveQuery | serveSetNamed.

Definition getHandler : gmap string Endpoint :=
  list_to_map
    [ ("ws", serveWebSocket);
      ("recent", serveRecentPermanodes);
      ("permanodeattr", servePermanodesWithAttr);
      ("describe", serveDescribe);
      ("claims", serveClaims);
      ("files", serveFiles);
      ("getnamed", serveGetNamed);
      ("signerattrvalue", serveSignerAttrValue);
      ("signerpaths", serveSignerPaths);
      ("edgesto", serveEdgesTo) ].

Definition postHandler : gmap string Endpoint :=
  list_to_map
    [ ("describe", serveDescribe);
      ("query", serveQuery);
      ("setnamed", serveSetNamed) ].

(** What ServeHTTP does with a request: hand it to an endpoint function,
    or write a JSON object with [httputil.ReturnJSON]. *)
Inductive Reply : Type :=
| Served (fn : Endpoint)
| ReturnJSON (ret : gmap string string).

Definition unsupportedReply : gmap string string :=
  <["errorType" := "input"]>
    (<["error" := "Unsupported search path or method"]> ∅).

Section ServeHTTP.
(** [httputil.IsGet] *)
Variable IsGet : Request -> bool.

(** The table selected by the method; [None] is Go's nil map, whose
    every lookup yields nil. *)
Definition handlersFor (req : Request) : option (gmap string Endpoint) :=
  if IsGet req then Some getHandler
  else if String.eqb (Method req) "POST" then Some postHandler
  else None.

Definition ServeHTTP (req : Request) : Reply :=
  let suffix := PathSuffix req in
  let fn :=
    match handlersFor req with
    | Some handlers => handlers !! TrimPrefix suffix "camli/search/"
    | None => None
    end in
  match fn with
  | Some f => Served f
  | None => ReturnJSON unsupportedReply
  end.
End ServeHTTP.

(** ** The types of [camtypes] and of the responses *)

Module RecentPermanode.
Record t := { Permanode : Ref; Signer : Ref; LastModTime : Time }.
End RecentPermanode.

Module PermanodeByAttrRequest.
Record t := {
  Attribute : string;
  Query : string;
  Signer : Ref;
  FuzzyMatch : bool;
  MaxResults : Z
}.
End PermanodeByAttrRequest.

Module Claim.
Record t := {
  BlobRef : Ref;
  Signer : Ref;
  Permanode : Ref;
  Date : Time;
  Type_ : string;
  Attr : string;
  Value : string
}.
End Claim.

Module Edge.
Record t := { From : Ref; FromType : string; To : Ref }.
End Edge.

Module RecentItem.
Record t := { BlobRef : Ref; ModTime : Time; Owner : Ref }.
End RecentItem.

Module WithAttrItem.
Record t := { Permanode : Ref }.
End WithAttrItem.

Module ClaimsItem.
Record t := {
  BlobRef : Ref;
  Signer : Ref;
  Permanode : Ref;
  Date : Time;
  Type_ : string;
  Attr : string;
  Value : string
}.
End ClaimsItem.

Module EdgeItem.
Record t := { From : Ref; FromType : string }.
End EdgeItem.

(** [DescribedPermanode.Attr] is a [url.Values]. *)
Module DescribedPermanode.
Record t := { Attr : gmap string (list string) }.
End DescribedPermanode.

Module DescribedBlob.
Record t := {
  BlobRef : Ref;
  CamliType : string;
  Permanode : option DescribedPermanode.t
}.
End DescribedBlob.

(** [MetaMap]: described blobs keyed by the string of their ref. *)
Abbreviation MetaMap := (gmap string DescribedBlob.t).

Module RecentResponse.
Record t := { Recent : list RecentItem.t; Meta : MetaMap }.
End RecentResponse.

Module WithAttrResponse.
Record t := { WithAttr : list WithAttrItem.t; Meta : MetaMap }.
End WithAttrResponse.

Module ClaimsRequest.
Record t := { Permanode : Ref; AttrFilter : string }.
End ClaimsRequest.

Module ClaimsResponse.
Record t := { Claims : list ClaimsItem.t }.
End ClaimsResponse.

Module EdgesRequest.
Record t := { ToRef : Ref }.
End EdgesRequest.

Module EdgesResponse.
Record t := { ToRef : Ref; EdgesTo : list EdgeItem.t }.
End EdgesResponse.

(** ** The collaborators of the handler

    [index.Interface], as far as the handler calls it.  A streaming scan
    is the list of items it sends on its channel before closing it,
    with the error it returns. *)
Module index.
Record Interface := {
  GetRecentPermanodes :
    Ref -> Z -> Time -> list RecentPermanode.t * option error;
  SearchPermanodesWithAttr :
    PermanodeByAttrRequest.t -> list Ref * option error;
  AppendClaims :
    list Claim.t -> Ref -> Ref -> string -> list Claim.t + error;
  EdgesTo : Ref -> list Edge.t + error
}.
End index.

(** The describe engine of the package (describe.go): what a
    [DescribeRequest] that was asked to describe the refs [dr] returns
    from [metaMapThumbs], and [DescribeSync]. *)
Module describe.
Record Engine := {
  metaMapThumbs : list (Ref * Z) -> Z -> MetaMap + error;
  DescribeSync : Ref -> DescribedBlob.t + error
}.
End describe.

Module Handler.
Record t := {
  index : index.Interface;
  owner : Ref;
  describer : describe.Engine
}.
End Handler.

(** ** The streaming query adapters *)

Import Handler.

(** One turn of the consumer loop of GetRecentPermanodes: describe the
    permanode at depth 2 and append its item. *)
Definition recentStep (acc : list (Ref * Z) * list RecentItem.t)
    (res : RecentPermanode.t) : list (Ref * Z) * list RecentItem.t :=
  (acc.1 ++ [(RecentPermanode.Permanode res, 2)],
   acc.2 ++ [ {| RecentItem.BlobRef := RecentPermanode.Permanode res;
                 RecentItem.Owner := RecentPermanode.Signer res;
                 RecentItem.ModTime := RecentPermanode.LastModTime res |} ]).

(** [now] is what [time.Now()] returns when the call starts.  The
    consumer drains the channel before it reads the scan's error. *)
Definition GetRecentPermanodes (sh : Handler.t) (now : Time)
    (req : RecentRequest.t) : outcome RecentResponse.t :=
  let before :=
    if negb (IsZero (RecentRequest.Before req))
    then RecentRequest.Before req else now in
  let scan :=
    index.GetRecentPermanodes (index sh) (owner sh)
      (RecentRequest.n req) before in
  let '(dr, recent) := fold_left recentStep scan.1 ([], []) in
  match scan.2 with
  | Some e => err e
  | None =>
      match describe.metaMapThumbs (describer sh) dr
              (RecentRequest.thumbnailSize req) with
      | inr e => err e
      | inl metaMap =>
          ok {| RecentResponse.Recent := recent;
                RecentResponse.Meta := metaMap |}
      end
  end.

Definition withAttrStep (acc : list (Ref * Z) * list WithAttrItem.t)
    (res : Ref) : list (Ref * Z) * list WithAttrItem.t :=
  (acc.1 ++ [(res, 2)],
   acc.2 ++ [ {| WithAttrItem.Permanode := res |} ]).

(** The request the by-attribute query hands to the index. *)
Definition withAttrIndexRequest (sh : Handler.t) (req : WithAttrRequest.t)
    : PermanodeByAttrRequest.t :=
  let signer :=
    if negb (blob.Valid (WithAttrRequest.Signer req))
    then owner sh else WithAttrRequest.Signer req in
  {| PermanodeByAttrRequest.Attribute := WithAttrRequest.Attr req;
     PermanodeByAttrRequest.Query := WithAttrRequest.Value req;
     PermanodeByAttrRequest.Signer := signer;
     PermanodeByAttrRequest.FuzzyMatch := WithAttrRequest.Fuzzy req;
     PermanodeByAttrRequest.MaxResults := WithAttrRequest.N req |}.

(** Here the describe error is looked at before the scan's error. *)
Definition GetPermanodesWithAttr (sh : Handler.t)
    (req : WithAttrRequest.t) : outcome WithAttrResponse.t :=
  let scan :=
    index.SearchPermanodesWithAttr (index sh) (withAttrIndexRequest sh req) in
  let '(dr, withAttr) := fold_left withAttrStep scan.1 ([], []) in
  match describe.metaMapThumbs (describer sh) dr
          (WithAttrRequest.thumbnailSize req) with
  | inr e => err e
  | inl metaMap =>
      match scan.2 with
      | Some e => err e
      | None =>
          ok {| WithAttrResponse.WithAttr := withAttr;
                WithAttrResponse.Meta := metaMap |}
      end
  end.


(** ** GetClaims *)

(** Modelled from the spec: [camtypes.ClaimsByDate], whose source lies
    outside handler.go, orders claims by ascending date: its
    [Less] compares the dates of the two claims. *)
Definition ClaimsByDate_Less (a b : Claim.t) : bool :=
  Claim.Date a <? Claim.Date b.

Definition claimsItemOf (claim : Claim.t) : ClaimsItem.t :=
  {| ClaimsItem.BlobRef := Claim.BlobRef claim;
     ClaimsItem.Signer := Claim.Signer claim;
     ClaimsItem.Permanode := Claim.Permanode claim;
     ClaimsItem.Date := Claim.Date claim;
     ClaimsItem.Type_ := Claim.Type_ claim;
     ClaimsItem.Attr := Claim.Attr claim;
     ClaimsItem.Value := Claim.Value claim |}.

Section GetClaims.
(** [sort.Sort] of the Go library, given the [Less] of the data. *)
Variable sortSort : forall A : Type, (A -> A -> bool) -> list A -> list A.

Definition GetClaims (sh : Handler.t) (req : ClaimsRequest.t)
    : outcome ClaimsResponse.t :=
  if negb (blob.Valid (ClaimsRequest.Permanode req))
  then err "Error getting claims: nil permanode."
  else
    match index.AppendClaims (index sh) [] (ClaimsRequest.Permanode req)
            (owner sh) (ClaimsRequest.AttrFilter req) with
    | inr e =>
        err (String.append "Error getting claims of "
               (String.append (blob.String (ClaimsRequest.Permanode req))
                  (String.append ": " e)))
    | inl claims =>
        let claims := sortSort Claim.t ClaimsByDate_Less claims in
        let jclaims :=
          fold_left (fun jclaims claim => jclaims ++ [claimsItemOf claim])
            claims [] in
        ok {| ClaimsResponse.Claims := jclaims |}
    end.
End GetClaims.

(** What the Go library promises of [sort.Sort]: the data is permuted
    and, for a [Less] that is a strict weak order, ends up with no
    element less than its predecessor.  Stability is not promised. *)
Record StrictWeakOrder {A : Type} (less : A -> A -> bool) : Prop := {
  swo_irrefl : forall a, less a a = false;
  swo_trans : forall a b c,
    less a b = true -> less b c = true -> less a c = true;
  swo_incomp : forall a b c,
    less a b = false -> less b a = false ->
    less b c = false -> less c b = false ->
    less a c = false /\ less c a = false
}.

Record SortContract
    (sortSort : forall A : Type, (A -> A -> bool) -> list A -> list A)
    : Prop := {
  sort_permutation : forall A less (l : list A),
    Permutation (sortSort A less l) l;
  sort_ordered : forall A less (l : list A),
    StrictWeakOrder less ->
    Sorted (fun a b => less b a = false) (sortSort A less l)
}.

(** Two sorts by insertion that keep that promise.  [insertionSort]
    puts an element before the first one that is not less than it, and
    is stable; [insertionSortLast] puts it before the first one that is
    greater, and reverses runs of equal elements. *)
Fixpoint insertWhen {A : Type} (stop : A -> A -> bool) (x : A)
    (l : list A) : list A :=
  match l with
  | [] => [x]
  | y :: l' => if stop x y then x :: y :: l' else y :: insertWhen stop x l'
  end.

Definition insertionSortBy {A : Type} (stop : A -> A -> bool)
    (l : list A) : list A :=
  foldr (insertWhen stop) [] l.

Definition insertionSort (A : Type) (less : A -> A -> bool)
    (l : list A) : list A :=
  insertionSortBy (fun x y => negb (less y x)) l.



(** ** EdgesTo: verification of inbound edges *)

Module edgeOrError.
Record t := { edge : option EdgeItem.t; err : option error }.
End edgeOrError.

Section EdgesTo.
(** [index.IsBlobReferenceAttribute] *)
Variable IsBlobReferenceAttribute : string -> bool.

(** The two nested loops of [verify] over the attributes of the
    described permanode; [found] only ever goes from false to true. *)
Definition foundIn (toRefStr : string) (attrs : gmap string (list string))
    : bool :=
  foldr
    (fun (kv : string * list string) found =>
       if IsBlobReferenceAttribute kv.1
       then foldr (fun v found =>
                     if String.eqb v toRefStr then true else found)
              found kv.2
       else found)
    false (map_to_list attrs).

(** What one verification task sends on the results channel. *)
Definition verify (sh : Handler.t) (toRefStr : string) (edge : Edge.t)
    : edgeOrError.t :=
  match describe.DescribeSync (describer sh) (Edge.From edge) with
  | inr e => {| edgeOrError.edge := None; edgeOrError.err := Some e |}
  | inl db =>
      let found :=
        match DescribedBlob.Permanode db with
        | Some pn => foundIn toRefStr (DescribedPermanode.Attr pn)
        | None => false
        end in
      {| edgeOrError.edge :=
           if found
           then Some {| EdgeItem.From := Edge.From edge;
                        EdgeItem.FromType := "permanode" |}
           else None;
         edgeOrError.err := None |}
  end.

(** The dispatch loop: a permanode edge starts a verification task,
    any other edge is appended at once. *)
Definition dispatchStep (acc : list EdgeItem.t * list Edge.t)
    (edge : Edge.t) : list EdgeItem.t * list Edge.t :=
  if String.eqb (Edge.FromType edge) "permanode"
  then (acc.1, acc.2 ++ [edge])
  else (acc.1 ++ [ {| EdgeItem.From := Edge.From edge;
                      EdgeItem.FromType := Edge.FromType edge |} ],
        acc.2).

(** The fan-in loop: one receive per task started; the first error
    received ends the request. *)
Fixpoint fanIn (results : list edgeOrError.t) (edgeItems : list EdgeItem.t)
    : outcome (list EdgeItem.t) :=
  match results with
  | [] => ok edgeItems
  | res :: rest =>
      match edgeOrError.err res with
      | Some e => err e
      | None =>
          match edgeOrError.edge res with
          | Some ei => fanIn rest (edgeItems ++ [ei])
          | None => fanIn rest edgeItems
          end
      end
  end.

(** The tasks run concurrently and send on one unbuffered channel:
    [completion] gives, for the tasks in the order they were started,
    the order in which their results are received. *)
Definition EdgesTo (completion : list Edge.t -> list Edge.t)
    (sh : Handler.t) (req : EdgesRequest.t) : outcome EdgesResponse.t :=
  let toRef := EdgesRequest.ToRef req in
  let toRefStr := blob.String toRef in
  match index.EdgesTo (index sh) toRef with
  | inr e => panic e
  | inl edges =>
      let '(edgeItems, verifying) := fold_left dispatchStep edges ([], []) in
      match fanIn (map (verify sh toRefStr) (completion verifying))
              edgeItems with
      | ok edgeItems =>
          ok {| EdgesResponse.ToRef := toRef;
                EdgesResponse.EdgesTo := edgeItems |}
      | err e => err e
      | panic e => panic e
      end
  end.

(** The edge list the specification asks for: the raw edges in the
    order of the index, without the permanode edges that fail the
    check. *)
Definition edgesInIndexOrder (sh : Handler.t) (toRefStr : string)
    (edges : list Edge.t) : list EdgeItem.t :=
  flat_map
    (fun edge =>
       if String.eqb (Edge.FromType edge) "permanode"
       then match edgeOrError.edge (verify sh toRefStr edge) with
            | Some ei => [ei]
            | None => []
            end
       else [ {| EdgeItem.From := Edge.From edge;
                 EdgeItem.FromType := Edge.FromType edge |} ])
    edges.
End EdgesTo.

(** ** The named-search aliases: GetNamed and SetNamed

    SetNamed writes through [sh.storageAndIndex] and reads back through
    [sh.Query] and the describe engine.  The storage and the index fed
    by it are modelled as one [World]: the blobs by digest, the
    permanodes and the claims the index has seen, the clock behind
    [time.Now] and the source of the random text of new permanodes. *)

Module SizedRef.
Record t := { Ref : Ref; Size : Z }.
End SizedRef.

Module GetNamedRequest.
Record t := { Named : string }.
End GetNamedRequest.

Module SetNamedRequest.
Record t := { Named : string; Substitute : string }.
End SetNamedRequest.

Module GetNamedResponse.
Record t := {
  Named : string;
  Substitute : string;
  PermaRef : Ref;
  SubstRef : Ref
}.
End GetNamedResponse.

Module SetNamedResponse.
Record t := { PermaRef : Ref; SubstRef : Ref }.
End SetNamedResponse.

(** Modelled from the spec: the two kinds of [schema.Builder] (package
    schema lies outside handler.go) that SetNamed makes.  A
    new permanode carries a random text, a claim the date it was built
    at. *)
Module schema.
Inductive Builder : Type :=
| UnsignedPermanode (random : nat)
| SetAttributeClaim (permaNode : Ref) (attr value : string) (claimDate : Time).
End schema.

(** Modelled from the spec: the state of the storage and of the index
    that SetNamed and GetNamed work on. *)
Record World := {
  blobs : gmap string string;
  permanodes : list Ref;
  claims : list Claim.t;
  clock : Time;
  random : nat
}.

Definition emptyWorld : World :=
  {| blobs := ∅; permanodes := []; claims := []; clock := 1; random := 0 |}.

(** A computation on the world that may fail. *)
Definition M (A : Type) : Type := World -> World * outcome A.

Definition ret {A : Type} (a : A) : M A := fun w => (w, ok a).

Definition bind {A B : Type} (c : M A) (k : A -> M B) : M B :=
  fun w =>
    match c w with
    | (w', ok a) => k a w'
    | (w', err e) => (w', err e)
    | (w', panic e) => (w', panic e)
    end.

Notation "'do' x <- c ; k" := (bind c (fun x => k))
  (at level 10, x name, c at level 100, k at level 200).

(** [time.Now()]: read the clock, which then moves on. *)
Definition timeNow : M Time :=
  fun w =>
    ({| blobs := blobs w; permanodes := permanodes w; claims := claims w;
        clock := clock w + 1; random := random w |},
     ok (clock w)).

(** Modelled from the spec: [schema.NewUnsignedPermanode] draws a
    random text, [schema.NewSetAttributeClaim] dates the claim with the
    time it is built at. *)
Definition NewUnsignedPermanode : M schema.Builder :=
  fun w =>
    ({| blobs := blobs w; permanodes := permanodes w; claims := claims w;
        clock := clock w; random := S (random w) |},
     ok (schema.UnsignedPermanode (random w))).

Definition NewSetAttributeClaim (permaNode : Ref) (attr value : string)
    : M schema.Builder :=
  do now <- timeNow;
  ret (schema.SetAttributeClaim permaNode attr value now).

(** Modelled from the spec: [blob.Parse], whose source lies outside
    handler.go, reads back the string of a valid ref and rejects
    the empty string. *)
Definition blob_Parse (s : string) : option Ref :=
  if HasPrefix s "sha1-" then Some (Sha1Ref (dropString 5 s)) else None.

(** Modelled from the spec: the fold of the claims on a permanode into
    its current attributes, which the index and the describe engine do
    outside of handler.go.  Claims are taken in date order, a later
    claim superseding the earlier ones on the same attribute. *)
Definition applyClaim (attrs : gmap string (list string)) (c : Claim.t)
    : gmap string (list string) :=
  if String.eqb (Claim.Type_ c) "set-attribute"
  then <[Claim.Attr c := [Claim.Value c]]> attrs
  else if String.eqb (Claim.Type_ c) "add-attribute"
  then <[Claim.Attr c := default [] (attrs !! Claim.Attr c) ++ [Claim.Value c]]>
         attrs
  else if String.eqb (Claim.Type_ c) "del-attribute"
  then if String.eqb (Claim.Value c) ""
       then delete (Claim.Attr c) attrs
       else alter (List.filter (fun v => negb (String.eqb v (Claim.Value c))))
              (Claim.Attr c) attrs
  else attrs.

(** Modelled from the spec: the claims of one signer on one permanode,
    and the attributes they give it once folded in date order. *)
Definition claimsOn (cl : list Claim.t) (signer permaNode : Ref)
    : list Claim.t :=
  List.filter
    (fun c => bool_decide (Claim.Permanode c = permaNode)
              && bool_decide (Claim.Signer c = signer))
    cl.

Definition attrsOfClaims (cl : list Claim.t) (signer permaNode : Ref)
    : gmap string (list string) :=
  fold_left applyClaim
    (insertionSort Claim.t ClaimsByDate_Less (claimsOn cl signer permaNode)) ∅.

Definition currentAttrs (w : World) (signer permaNode : Ref)
    : gmap string (list string) :=
  attrsOfClaims (claims w) signer permaNode.

(** [url.Values.Get]: the first value of the key, or the empty string. *)
Definition Values_Get (attrs : gmap string (list string)) (k : string)
    : string :=
  match attrs !! k with
  | Some (v :: _) => v
  | _ => ""
  end.

(** Modelled from the spec: the permanodes whose current attribute
    [attr] has [value] among its values, in the order the index lists
    them. *)
Definition permanodesWithAttrValue (w : World) (signer : Ref)
    (attr value : string) : list Ref :=
  List.filter
    (fun p => bool_decide
                (value ∈ default [] (currentAttrs w signer p !! attr)))
    (permanodes w).

(** Modelled from the spec: [sh.storageAndIndex.Fetch] followed by
    [ioutil.ReadAll] gives the bytes stored under the ref, and fails
    when there are none. *)
Definition Fetch (w : World) (br : Ref) : option string :=
  match br with
  | ZeroRef => None
  | Sha1Ref h => blobs w !! h
  end.

(** Modelled from the spec: the index lists a permanode once, however
    often its blob arrives. *)
Definition addPermanode (pn : Ref) (l : list Ref) : list Ref :=
  if bool_decide (pn ∈ l) then l else l ++ [pn].

Section NamedSearch.
(** The owner of the handler, [sh.owner]. *)
Variable owner : Ref.
(** The digest of a blob, in hexadecimal. *)
Variable sha1 : string -> string.
(** The JSON of a builder once its signer is set and [jsonsign] has
    signed it at the given time. *)
Variable signedJSON : schema.Builder -> Ref -> Time -> string.
(** The failures of the storage and of the signer. *)
Variable receiveFault : World -> string -> option error.
Variable signFault : World -> schema.Builder -> option error.
(** [Constraint], [parseExpression] (expr.go) and the JSON decoding of
    a constraint.  [logicalB c] is [c.Logical.B], or [None] when
    [c.Logical] is nil and the selector panics. *)
Variable Constraint : Type.
Variable parseExpression : string -> Constraint + error.
Variable logicalB : Constraint -> option Constraint.
Variable jsonDecodeConstraint : string -> Constraint + error.
(** The order in which [sh.Query] returns the blobs that match. *)
Variable queryOrder : World -> list Ref -> list Ref.

Definition evalSearchInput (in_ : string) : outcome Constraint :=
  if (Z.of_nat (String.length in_) =? 0) then err "empty expression"
  else if HasPrefix in_ "{" && HasSuffix in_ "}"
  then match jsonDecodeConstraint in_ with
       | inr e => err e
       | inl cs => ok cs
       end
  else match parseExpression in_ with
       | inr e => err e
       | inl c =>
           match logicalB c with
           | Some b => ok b
           | None => panic "invalid memory address or nil pointer dereference"
           end
       end.

(** receiveString, with [blobserver.ReceiveString] modelled from the
    spec: unless the storage fails, the blob is stored under the digest
    of its bytes, which is its ref. *)
Definition receiveString (s : string) : M SizedRef.t :=
  fun w =>
    match receiveFault w s with
    | Some e => (w, err e)
    | None =>
        ({| blobs := <[sha1 s := s]> (blobs w);
            permanodes := permanodes w; claims := claims w;
            clock := clock w; random := random w |},
         ok {| SizedRef.Ref := Sha1Ref (sha1 s);
               SizedRef.Size := Z.of_nat (String.length s) |})
    end.

(** Modelled from the spec: what the index behind [sh.storageAndIndex]
    records when the signed blob of [b] arrives: a permanode, or a
    set-attribute claim of the owner. *)
Definition indexBlob (b : schema.Builder) (br : Ref) : M unit :=
  fun w =>
    match b with
    | schema.UnsignedPermanode _ =>
        ({| blobs := blobs w;
            permanodes := addPermanode br (permanodes w);
            claims := claims w; clock := clock w; random := random w |},
         ok tt)
    | schema.SetAttributeClaim pn attr value date =>
        ({| blobs := blobs w; permanodes := permanodes w;
            claims := claims w ++
              [ {| Claim.BlobRef := br; Claim.Signer := owner;
                   Claim.Permanode := pn; Claim.Date := date;
                   Claim.Type_ := "set-attribute";
                   Claim.Attr := attr; Claim.Value := value |} ];
            clock := clock w; random := random w |},
         ok tt)
    end.

(** Modelled from the spec: [b.JSON] and [jsonsign.SignRequest.Sign]
    turn the builder into signed JSON, or fail. *)
Definition sign (b : schema.Builder) (now : Time) : M string :=
  fun w =>
    match signFault w b with
    | Some e => (w, err e)
    | None => (w, ok (signedJSON b owner now))
    end.

Definition receiveAndSign (b : schema.Builder) : M SizedRef.t :=
  do now <- timeNow;
  do signed <- sign b now;
  do sref <- receiveString signed;
  do _ <- indexBlob b (SizedRef.Ref sref);
  ret sref.

(** Modelled from the spec: [sh.Query] (query.go) for a constraint on
    one permanode attribute returns the permanodes that carry the
    value in claims of the owner; the spec fixes no order among them. *)
Definition Query (w : World) (attr value : string) : list Ref :=
  queryOrder w (permanodesWithAttrValue w owner attr value).

Definition GetNamed (w : World) (r : GetNamedRequest.t)
    : outcome GetNamedResponse.t :=
  match Query w "camliNamedSearch" (GetNamedRequest.Named r) with
  | [] =>
      err (String.append "No named search found for: "
             (GetNamedRequest.Named r))
  | permaRef :: _ =>
      let substRefS :=
        Values_Get (currentAttrs w owner permaRef) "camliContent" in
      match blob_Parse substRefS with
      | None => err (String.append "Invalid blob ref: " substRefS)
      | Some br =>
          match Fetch w br with
          | None => err "file does not exist"
          | Some result =>
              ok {| GetNamedResponse.Named := GetNamedRequest.Named r;
                    GetNamedResponse.PermaRef := permaRef;
                    GetNamedResponse.Substitute := result;
                    GetNamedResponse.SubstRef := br |}
          end
      end
  end.

(** The loop over the claim builders at the end of SetNamed. *)
Fixpoint signClaims (claims : list schema.Builder) : M unit :=
  match claims with
  | [] => ret tt
  | claimBuilder :: rest =>
      do _ <- receiveAndSign claimBuilder;
      signClaims rest
  end.

(** The permanode of the alias and the claims that set it up: the one
    GetNamed finds, or a new one when GetNamed fails. *)
Definition aliasPermanode (named : string)
    : M (Ref * list schema.Builder) :=
  fun w =>
    match GetNamed w {| GetNamedRequest.Named := named |} with
    | ok gr => (w, ok (GetNamedResponse.PermaRef gr, []))
    | err _ =>
        (do b <- NewUnsignedPermanode;
         do pnSRef <- receiveAndSign b;
         let pn := SizedRef.Ref pnSRef in
         do c1 <- NewSetAttributeClaim pn "camliNamedSearch" named;
         do c2 <- NewSetAttributeClaim pn "title"
                    (String.append "named:" named);
         ret (pn, [c1; c2])) w
    | panic e => (w, panic e)
    end.

Definition SetNamed (r : SetNamedRequest.t) : M SetNamedResponse.t :=
  do _ <- (fun w => (w, evalSearchInput (SetNamedRequest.Substitute r)));
  do ssref <- receiveString (SetNamedRequest.Substitute r);
  let sref := SizedRef.Ref ssref in
  do pnClaims <- aliasPermanode (SetNamedRequest.Named r);
  let pn := pnClaims.1 in
  do c3 <- NewSetAttributeClaim pn "camliContent" (blob.String sref);
  do _ <- signClaims (pnClaims.2 ++ [c3]);
  ret {| SetNamedResponse.PermaRef := pn;
         SetNamedResponse.SubstRef := sref |}.
End NamedSearch.

(** ** Collaborators held in memory

    Small stand-ins for the collaborators, on which the operations can
    be run: an index over given lists, a describe engine over a given
    attribute table, a reader of decimal numbers. *)


Definition memIndex (recents : list RecentPermanode.t) (withAttr : list Ref)
    (cl : list Claim.t) (edges : list Edge.t) (scanErr : option error)
    : index.Interface :=
  {| index.GetRecentPermanodes := fun signer n before =>
       (take (Z.to_nat n)
          (List.filter
             (fun rp => bool_decide (RecentPermanode.Signer rp = signer)
                        && (RecentPermanode.LastModTime rp <? before))
             recents),
        scanErr);
     index.SearchPermanodesWithAttr := fun r =>
       (take (Z.to_nat (PermanodeByAttrRequest.MaxResults r)) withAttr,
        scanErr);
     index.AppendClaims := fun dst permaNode signer attrFilter =>
       inl (dst ++
            List.filter
              (fun c => bool_decide (Claim.Permanode c = permaNode)
                        && bool_decide (Claim.Signer c = signer)
                        && (String.eqb attrFilter ""
                            || String.eqb (Claim.Attr c) attrFilter))
              cl);
     index.EdgesTo := fun toRef =>
       inl (List.filter (fun e => bool_decide (Edge.To e = toRef)) edges) |}.

Definition memDescribe (attrsOf : Ref -> option (gmap string (list string)))
    (metaErr : option error) : describe.Engine :=
  {| describe.metaMapThumbs := fun dr thumbSize =>
       match metaErr with
       | Some e => inr e
       | None => inl ∅
       end;
     describe.DescribeSync := fun br =>
       match attrsOf br with
       | Some attrs =>
           inl {| DescribedBlob.BlobRef := br;
                  DescribedBlob.CamliType := "permanode";
                  DescribedBlob.Permanode :=
                    Some {| DescribedPermanode.Attr := attrs |} |}
       | None => inr "blob not found"
       end |}.




Definition methodIsGet (req : Request) : bool :=
  String.eqb (Method req) "GET".

Definition getRequest (suffix : string) (form : list (string * string))
    : Request :=
  {| Method := "GET"; PathSuffix := suffix; Form := list_to_map form;
     Body := "" |}.


(** ** Example data *)

Definition refP : Ref := Sha1Ref "0a".
Definition refQ : Ref := Sha1Ref "0b".
Definition refF : Ref := Sha1Ref "0c".
Definition refT : Ref := Sha1Ref "0d".
Definition refOwner : Ref := Sha1Ref "0e".
Definition refOther : Ref := Sha1Ref "0f".

Definition exampleRecents : list RecentPermanode.t :=
  [ {| RecentPermanode.Permanode := refP; RecentPermanode.Signer := refOwner;
       RecentPermanode.LastModTime := 20 |};
    {| RecentPermanode.Permanode := refQ; RecentPermanode.Signer := refOwner;
       RecentPermanode.LastModTime := 10 |} ].

Definition exampleClaim (br signer : Ref) (date : Time) (value : string)
    : Claim.t :=
  {| Claim.BlobRef := br; Claim.Signer := signer; Claim.Permanode := refP;
     Claim.Date := date; Claim.Type_ := "set-attribute";
     Claim.Attr := "camliMember"; Claim.Value := value |}.

(** Two claims of the owner with one date, and a claim of someone else. *)
Definition exampleClaims : list Claim.t :=
  [ exampleClaim refQ refOwner 7 "first";
    exampleClaim refF refOwner 7 "second";
    exampleClaim refT refOther 3 "foreign" ].

(** A live permanode edge followed by a file edge, both to [refT]. *)
Definition exampleEdges : list Edge.t :=
  [ {| Edge.From := refP; Edge.FromType := "permanode"; Edge.To := refT |};
    {| Edge.From := refF; Edge.FromType := "file"; Edge.To := refT |} ].

Definition exampleAttrs (br : Ref) : option (gmap string (list string)) :=
  if bool_decide (br = refP)
  then Some {[ "camliMember" := [blob.String refT] ]}
  else if bool_decide (br = refQ)
  then Some {[ "camliMember" := [blob.String refF] ]}
  else None.

Definition exampleHandler (scanErr metaErr : option error) : Handler.t :=
  {| Handler.index :=
       memIndex exampleRecents [refP; refQ] exampleClaims exampleEdges scanErr;
     Handler.owner := refOwner;
     Handler.describer := memDescribe exampleAttrs metaErr |}.

Definition isMemberAttr (attr : string) : bool :=
  String.eqb attr "camliMember".

(** The item of an edge that is passed on as it is. *)
Definition edgeItemOf (edge : Edge.t) : EdgeItem.t :=
  {| EdgeItem.From := Edge.From edge; EdgeItem.FromType := Edge.FromType edge |}.

Definition isPermanodeEdge (edge : Edge.t) : bool :=
  String.eqb (Edge.FromType edge) "permanode".

(** The results of the verification tasks that kept their edge. *)
Definition keptEdges (results : list edgeOrError.t) : list EdgeItem.t :=
  flat_map (fun res => match edgeOrError.edge res with
                       | Some ei => [ei]
                       | None => []
                       end) results.

(** Every task finishes exactly once, in some order. *)
Definition fairCompletion (completion : list Edge.t -> list Edge.t) : Prop :=
  forall tasks, Permutation (completion tasks) tasks.

Definition itemP : EdgeItem.t :=
  {| EdgeItem.From := refP; EdgeItem.FromType := "permanode" |}.
Definition itemF : EdgeItem.t :=
  {| EdgeItem.From := refF; EdgeItem.FromType := "file" |}.

(** An index filters the claims it appends by the signer it is given. *)
Definition filtersBySigner (ix : index.Interface) : Prop :=
  forall dst permaNode signer attrFilter cl,
    index.AppendClaims ix dst permaNode signer attrFilter = inl cl ->
    forall c, In c cl -> In c dst \/ Claim.Signer c = signer.

Definition exampleClaimsRequest : ClaimsRequest.t :=
  {| ClaimsRequest.Permanode := refP; ClaimsRequest.AttrFilter := "" |}.

(** ** Conditions on the world of the aliases *)




(** A query returns the blobs that match, in whatever order. *)
Definition keepsMembers (queryOrder : World -> list Ref -> list Ref) : Prop :=
  forall w l p, In p (queryOrder w l) <-> In p l.

(** Collaborators for running SetNamed and GetNamed: the text itself as
    its digest, a plain text as the signed form of a builder, storage
    and signer without failures, and a parser that accepts the
    expressions with a colon in them. *)
Fixpoint tally (n : nat) : string :=
  match n with
  | O => ""
  | S n' => String.append "i" (tally n')
  end.

Definition exampleSignedJSON (b : schema.Builder) (signer : Ref)
    (now : Time) : string :=
  match b with
  | schema.UnsignedPermanode random =>
      String.append "permanode " (tally random)
  | schema.SetAttributeClaim pn attr value date =>
      String.append "claim "
        (String.append (blob.String pn)
           (String.append " "
              (String.append attr
                 (String.append "=" 
                    (String.append value
                       (String.append " " (tally (Z.to_nat date))))))))
  end.

Definition noFault {A : Type} (w : World) (a : A) : option error := None.

Fixpoint hasColon (s : string) : bool :=
  match s with
  | EmptyString => false
  | String c s' => if String.eqb (String c EmptyString) ":" then true else hasColon s'
  end.

Definition exampleParse (s : string) : string + error :=
  if hasColon s then inl s
  else inr "expected operator or predicate, got literal".

Definition indexOrder (w : World) (l : list Ref) : list Ref := l.

Definition exampleSetNamed (named substitute : string)
    : M SetNamedResponse.t :=
  SetNamed refOwner (fun s => s) exampleSignedJSON noFault noFault
    string exampleParse Some exampleParse indexOrder
    {| SetNamedRequest.Named := named;
       SetNamedRequest.Substitute := substitute |}.

Definition exampleGetNamed (w : World) (named : string)
    : outcome GetNamedResponse.t :=
  GetNamed refOwner indexOrder w {| GetNamedRequest.Named := named |}.

(** The claim the index records for a set-attribute builder. *)
Definition isSetClaim (owner permaNode : Ref) (attr value : string)
    (c : Claim.t) : Prop :=
  Claim.Signer c = owner /\ Claim.Permanode c = permaNode
  /\ Claim.Type_ c = "set-attribute"
  /\ Claim.Attr c = attr /\ Claim.Value c = value.

(** Blobs stored under the digest of their bytes stay so. *)
Definition blobsKept (sha1 : string -> string) (w w' : World) : Prop :=
  forall s, blobs w !! sha1 s = Some s -> blobs w' !! sha1 s = Some s.

(** Every blob that is stored stays stored. *)
Definition blobsStay (w w' : World) : Prop :=
  forall h, is_Some (blobs w !! h) -> is_Some (blobs w' !! h).


(** The world after [SetNamed "foo" "is:pano"] in the empty world, with
    the collaborators above. *)
Definition exampleSetClaim (br : string) (date : Time) (attr value : string)
    : Claim.t :=
  {| Claim.BlobRef := Sha1Ref br; Claim.Signer := refOwner;
     Claim.Permanode := Sha1Ref "permanode "; Claim.Date := date;
     Claim.Type_ := "set-attribute"; Claim.Attr := attr;
     Claim.Value := value |}.

Definition exampleWorld1 : World :=
  {| blobs :=
       list_to_map
         (map (fun s => (s, s))
            [ "is:pano"; "permanode ";
              "claim sha1-permanode  camliNamedSearch=foo ii";
              "claim sha1-permanode  title=named:foo iii";
              "claim sha1-permanode  camliContent=sha1-is:pano iiii" ]);
     permanodes := [Sha1Ref "permanode "];
     claims :=
       [ exampleSetClaim "claim sha1-permanode  camliNamedSearch=foo ii" 2
           "camliNamedSearch" "foo";
         exampleSetClaim "claim sha1-permanode  title=named:foo iii" 3
           "title" "named:foo";
         exampleSetClaim
           "claim sha1-permanode  camliContent=sha1-is:pano iiii" 4
           "camliContent" "sha1-is:pano" ];
     clock := 8;
     random := 1 |}.

Definition exampleResponse1 : SetNamedResponse.t :=
  {| SetNamedResponse.PermaRef := Sha1Ref "permanode ";
     SetNamedResponse.SubstRef := Sha1Ref "is:pano" |}.





(** A computation that never removes a blob from the storage. *)
Definition growsBlobs {A : Type} (c : M A) : Prop :=
  forall w w' o, c w = (w', o) -> blobsStay w w'.


(** ** More of handler.go: GetSignerPaths and serveFiles *)

Module SignerPathsRequest.
Record t := { Signer : Ref; Target : Ref }.
End SignerPathsRequest.

(** [camtypes.Path], as far as GetSignerPaths reads it. *)
Module Path.
Record t := { Claim : Ref; Base : Ref; Suffix : string }.
End Path.

Module SignerPathsItem.
Record t := { ClaimRef : Ref; BaseRef : Ref; Suffix : string }.
End SignerPathsItem.

Module SignerPathsResponse.
Record t := { Paths : list SignerPathsItem.t; Meta : MetaMap }.
End SignerPathsResponse.

Definition signerPathsItemOf (path : Path.t) : SignerPathsItem.t :=
  {| SignerPathsItem.ClaimRef := Path.Claim path;
     SignerPathsItem.BaseRef := Path.Base path;
     SignerPathsItem.Suffix := Path.Suffix path |}.

Section GetSignerPaths.
(** [sh.index.PathsOfSignerTarget], and [metaMap] of a describe request
    that was asked to describe the refs given. *)
Variable PathsOfSignerTarget : Ref -> Ref -> list Path.t + error.
Variable metaMap : list (Ref * Z) -> MetaMap + error.

Definition GetSignerPaths (req : SignerPathsRequest.t)
    : outcome SignerPathsResponse.t :=
  if negb (blob.Valid (SignerPathsRequest.Signer req))
  then err "Error getting signer paths: nil signer."
  else if negb (blob.Valid (SignerPathsRequest.Target req))
  then err "Error getting signer paths: nil target."
  else
    match PathsOfSignerTarget (SignerPathsRequest.Signer req)
            (SignerPathsRequest.Target req) with
    | inr e =>
        err (String.append "Error getting paths of "
               (String.append (blob.String (SignerPathsRequest.Target req))
                  (String.append ": " e)))
    | inl paths =>
        let jpaths :=
          fold_left (fun jpaths path => jpaths ++ [signerPathsItemOf path])
            paths [] in
        let dr :=
          fold_left (fun dr path => dr ++ [(Path.Base path, 2)]) paths [] in
        match metaMap dr with
        | inr e => err e
        | inl m =>
            ok {| SignerPathsResponse.Paths := jpaths;
                  SignerPathsResponse.Meta := m |}
        end
    end.
End GetSignerPaths.

(** The values serveFiles puts in its JSON object. *)
Inductive jsonValue : Type :=
| jsonString (s : string)
| jsonStrings (l : list string).

Section ServeFiles.
(** [sh.index.ExistingFileSchemas] *)
Variable ExistingFileSchemas : Ref -> list Ref + error.

(** serveFiles: the object it hands to the deferred
    [httputil.ReturnJSON]. *)
Definition serveFilesReply (req : Request) : gmap string jsonValue :=
  match blob_Parse (FormValue req "wholedigest") with
  | None =>
      <["errorType" := jsonString "input"]>
        (<["error" := jsonString "Missing or invalid 'wholedigest' param"]> ∅)
  | Some br =>
      match ExistingFileSchemas br with
      | inr e =>
          <["errorType" := jsonString "server"]>
            (<["error" := jsonString e]> ∅)
      | inl files =>
          <["files" :=
              jsonStrings
                (fold_left (fun strList br => strList ++ [blob.String br])
                   files [])]> ∅
      end
  end.
End ServeFiles.

(** The items the two streaming queries build, one per scanned entry. *)
Definition recentItemOf (res : RecentPermanode.t) : RecentItem.t :=
  {| RecentItem.BlobRef := RecentPermanode.Permanode res;
     RecentItem.Owner := RecentPermanode.Signer res;
     RecentItem.ModTime := RecentPermanode.LastModTime res |}.

Definition withAttrItemOf (res : Ref) : WithAttrItem.t :=
  {| WithAttrItem.Permanode := res |}.

(** A computation that keeps all there is in the world: blobs,
    permanodes and claims stay, and the clock does not go back. *)
Definition keepsWorld (w w' : World) : Prop :=
  blobsStay w w'
  /\ (forall p, In p (permanodes w) -> In p (permanodes w'))
  /\ (exists more, claims w' = claims w ++ more)
  /\ clock w <= clock w'.

Definition appendOnly {A : Type} (c : M A) : Prop :=
  forall w w' o, c w = (w', o) -> keepsWorld w w'.

(** The example handler over another list of raw edges. *)
Definition exampleEdgesHandler (edges : list Edge.t) : Handler.t :=
  {| Handler.index :=
       memIndex exampleRecents [refP; refQ] exampleClaims edges None;
     Handler.owner := refOwner;
     Handler.describer := memDescribe exampleAttrs None |}.

(** * Properties *)

(** ** Result counts *)



Lemma sanitizeNumResults_range (n : Z) :
  0 < sanitizeNumResults n <= maxResults.
Proof.
  unfold sanitizeNumResults, maxResults, defaultNumResults.
  destruct (n <=? 0) eqn:H0; simpl; [lia|].
  destruct (n >? 1000) eqn:H1; lia.
Qed.

Lemma sanitizeNumResults_in_range (n : Z) :
  0 < n <= 1000 -> sanitizeNumResults n = n.
Proof.
  intros H. unfold sanitizeNumResults, maxResults.
  destruct (n <=? 0) eqn:H0; [lia|].
  destruct (n >? 1000) eqn:H1; [lia|]. reflexivity.
Qed.








(** GetPermanodesWithAttr itself hands [req.N] to the index as it is:
    the sanitizing of the by-attribute count is done by [fromHTTP]. *)
Lemma GetPermanodesWithAttr_forwards_N sh req :
  PermanodeByAttrRequest.MaxResults (withAttrIndexRequest sh req)
  = WithAttrRequest.N req.
Proof. reflexivity. Qed.

(** ** Thumbnail sizes *)



(** As read from the form by [thumbnailSizeStr], a size is already 0 or
    within 25..800 when it reaches either query: only an absent or empty
    parameter gives 0, and every other text outside the range gives 50. *)
Lemma thumbnailSizeStr_range Atoi s :
  thumbnailSizeStr Atoi s = 0 /\ s = ""
  \/ s <> "" /\ 25 <= thumbnailSizeStr Atoi s <= 800.
Proof.
  unfold thumbnailSizeStr, minThumbSize, maxThumbSize, defThumbSize.
  destruct (String.eqb s "") eqn:E.
  - left. split; [reflexivity|]. now apply String.eqb_eq.
  - right. split; [now apply String.eqb_neq|].
    destruct ((Atoi s).1 >=? 25) eqn:E1; destruct ((Atoi s).1 <=? 800) eqn:E2;
      simpl; lia.
Qed.

(** ** Dispatch *)



(** ** The edge verifier *)

Lemma fold_left_dispatchStep edges items tasks :
  fold_left dispatchStep edges (items, tasks)
  = (items ++ map edgeItemOf
                (List.filter (fun e => negb (isPermanodeEdge e)) edges),
     tasks ++ List.filter isPermanodeEdge edges).
Proof.
  revert items tasks.
  induction edges as [|edge edges IH]; intros items tasks; simpl.
  - now rewrite !app_nil_r.
  - unfold dispatchStep at 2.
    change (String.eqb (Edge.FromType edge) "permanode")
      with (isPermanodeEdge edge).
    destruct (isPermanodeEdge edge); simpl; rewrite IH;
      now rewrite <- app_assoc.
Qed.

Lemma fanIn_ok results items :
  Forall (fun res => edgeOrError.err res = None) results ->
  fanIn results items = ok (items ++ keptEdges results).
Proof.
  intros Hall. revert items.
  induction Hall as [|res results Hres _ IH]; intros items; simpl.
  - now rewrite app_nil_r.
  - rewrite Hres. destruct (edgeOrError.edge res); rewrite IH; simpl.
    + now rewrite <- app_assoc.
    + reflexivity.
Qed.


Lemma fanIn_result results items :
  (exists kept, fanIn results items = ok kept)
  \/ (exists e, fanIn results items = err e).
Proof.
  revert items. induction results as [|res results IH]; intros items; simpl.
  - left. eauto.
  - destruct (edgeOrError.err res); [right; eauto|].
    destruct (edgeOrError.edge res); apply IH.
Qed.

Lemma fanIn_ok_inv results items kept :
  fanIn results items = ok kept ->
  Forall (fun res => edgeOrError.err res = None) results.
Proof.
  revert items. induction results as [|res results IH]; intros items; simpl.
  - constructor.
  - destruct (edgeOrError.err res) eqn:Hres; [discriminate|].
    destruct (edgeOrError.edge res); intros Hf; constructor; eauto.
Qed.

(** What a successful EdgesTo returns: the edges that are not from a
    permanode, in index order, and after them the verified edges that
    were kept, in the order their tasks finished. *)
Lemma EdgesTo_ok_shape isBRA completion sh req edges resp :
  index.EdgesTo (index sh) (EdgesRequest.ToRef req) = inl edges ->
  EdgesTo isBRA completion sh req = ok resp ->
  EdgesResponse.EdgesTo resp
  = map edgeItemOf (List.filter (fun e => negb (isPermanodeEdge e)) edges)
    ++ keptEdges
         (map (verify isBRA sh (blob.String (EdgesRequest.ToRef req)))
            (completion (List.filter isPermanodeEdge edges)))
  /\ Forall (fun res => edgeOrError.err res = None)
       (map (verify isBRA sh (blob.String (EdgesRequest.ToRef req)))
          (completion (List.filter isPermanodeEdge edges))).
Proof.
  intros Hidx. unfold EdgesTo. rewrite Hidx.
  rewrite fold_left_dispatchStep. simpl.
  destruct (fanIn _ _) as [kept|e|e] eqn:Hfan; [|discriminate..].
  intros [= <-]. simpl.
  pose proof (fanIn_ok_inv _ _ _ Hfan) as Hall.
  rewrite (fanIn_ok _ _ Hall) in Hfan. injection Hfan as <-.
  split; [reflexivity|assumption].
Qed.

Lemma edgesInIndexOrder_split isBRA sh toRefStr edges :
  Permutation (edgesInIndexOrder isBRA sh toRefStr edges)
    (map edgeItemOf (List.filter (fun e => negb (isPermanodeEdge e)) edges)
     ++ keptEdges (map (verify isBRA sh toRefStr)
                     (List.filter isPermanodeEdge edges))).
Proof.
  induction edges as [|edge edges IH]; simpl.
  - constructor.
  - change (String.eqb (Edge.FromType edge) "permanode")
      with (isPermanodeEdge edge).
    destruct (isPermanodeEdge edge); simpl.
    + etransitivity; [apply Permutation_app_head, IH|].
      apply Permutation_app_swap_app.
    + constructor. exact IH.
Qed.

(** C3, as the code has it.  The edge list of a successful EdgesTo holds
    first the edges that are not from a permanode, in index order, then
    the verified permanode edges in the order their tasks finished: it
    is a rearrangement of the index-ordered list, equal to it only when
    no permanode edge precedes another edge and the tasks finish in the
    order they were started. *)
Theorem EdgesTo_order_follows_completion
    (isBRA : string -> bool) (completion : list Edge.t -> list Edge.t)
    (sh : Handler.t) (req : EdgesRequest.t) (edges : list Edge.t)
    (resp : EdgesResponse.t)
    (Hfair : fairCompletion completion)
    (Hidx : index.EdgesTo (index sh) (EdgesRequest.ToRef req) = inl edges)
    (Hok : EdgesTo isBRA completion sh req = ok resp) :
  EdgesResponse.EdgesTo resp
  = map edgeItemOf (List.filter (fun e => negb (isPermanodeEdge e)) edges)
    ++ keptEdges
         (map (verify isBRA sh (blob.String (EdgesRequest.ToRef req)))
            (completion (List.filter isPermanodeEdge edges)))
  /\ Permutation (EdgesResponse.EdgesTo resp)
       (edgesInIndexOrder isBRA sh (blob.String (EdgesRequest.ToRef req))
          edges).
Proof.
  destruct (EdgesTo_ok_shape _ _ _ _ _ _ Hidx Hok) as [Hshape _].
  split; [exact Hshape|]. rewrite Hshape.
  symmetry. etransitivity; [apply edgesInIndexOrder_split|].
  apply Permutation_app_head. unfold keptEdges.
  apply Permutation_flat_map, Permutation_map. symmetry. apply Hfair.
Qed.

Lemma EdgesTo_order_follows_completion_witness :
  exists resp,
    EdgesTo isMemberAttr (fun tasks => tasks) (exampleHandler None None)
      {| EdgesRequest.ToRef := refT |} = ok resp
    /\ EdgesResponse.EdgesTo resp = [itemF; itemP].
Proof.
  eexists. split; [reflexivity|].
  apply (EdgesTo_order_follows_completion isMemberAttr (fun tasks => tasks)
           (exampleHandler None None) {| EdgesRequest.ToRef := refT |}
           exampleEdges).
  - intros tasks. apply Permutation_refl.
  - reflexivity.
  - reflexivity.
Defined.

(** C3, as the specification has it, fails: with the tasks finishing in
    the order they were started, a live permanode edge listed by the
    index before a file edge comes out after it. *)
Lemma EdgesTo_order_counterexample :
  exists resp,
    index.EdgesTo (index (exampleHandler None None)) refT = inl exampleEdges
    /\ EdgesTo isMemberAttr (fun tasks => tasks) (exampleHandler None None)
         {| EdgesRequest.ToRef := refT |} = ok resp
    /\ EdgesResponse.EdgesTo resp = [itemF; itemP]
    /\ edgesInIndexOrder isMemberAttr (exampleHandler None None)
         (blob.String refT) exampleEdges = [itemP; itemF]
    /\ EdgesResponse.EdgesTo resp
       <> edgesInIndexOrder isMemberAttr (exampleHandler None None)
            (blob.String refT) exampleEdges.
Proof.
  eexists. repeat split; try reflexivity.
  vm_compute. discriminate.
Qed.

(** ** Errors and partial results *)






(** ** Sorting by insertion *)

Section InsertionSort.
Context {A : Type} (stop : A -> A -> bool) (le : A -> A -> Prop).
Hypothesis stop_le : forall x y, stop x y = true -> le x y.
Hypothesis pass_le : forall x y, stop x y = false -> le y x.

Lemma insertWhen_Permutation x l :
  Permutation (insertWhen stop x l) (x :: l).
Proof using Type.
  induction l as [|y l IH]; simpl.
  - apply Permutation_refl.
  - destruct (stop x y).
    + apply Permutation_refl.
    + etransitivity; [apply perm_skip, IH|apply perm_swap].
Qed.

Lemma insertionSortBy_Permutation l :
  Permutation (insertionSortBy stop l) l.
Proof using Type.
  induction l as [|x l IH]; simpl.
  - apply Permutation_refl.
  - etransitivity; [apply insertWhen_Permutation|apply perm_skip, IH].
Qed.

Lemma insertWhen_HdRel a x l :
  HdRel le a l -> le a x -> HdRel le a (insertWhen stop x l).
Proof using Type.
  intros Hhd Hax. destruct l as [|y l]; simpl.
  - now constructor.
  - destruct (stop x y); constructor; [assumption|].
    now inversion Hhd.
Qed.

Lemma insertWhen_Sorted x l :
  Sorted le l -> Sorted le (insertWhen stop x l).
Proof using stop_le pass_le.
  induction 1 as [|y l Hsorted IH Hhd]; simpl.
  - repeat constructor.
  - destruct (stop x y) eqn:Hstop.
    + constructor; [now constructor|]. constructor. now apply stop_le.
    + constructor; [exact IH|].
      apply insertWhen_HdRel; [exact Hhd|now apply pass_le].
Qed.

Lemma insertionSortBy_Sorted l : Sorted le (insertionSortBy stop l).
Proof using stop_le pass_le.
  induction l as [|x l IH]; simpl.
  - constructor.
  - now apply insertWhen_Sorted.
Qed.
End InsertionSort.

Lemma StrictWeakOrder_asym {A : Type} (less : A -> A -> bool) a b :
  StrictWeakOrder less -> less a b = true -> less b a = false.
Proof.
  intros Hswo Hab. destruct (less b a) eqn:Hba; [|reflexivity].
  pose proof (swo_trans less Hswo a b a Hab Hba) as Haa.
  rewrite (swo_irrefl less Hswo a) in Haa. discriminate.
Qed.

Lemma insertionSort_contract : SortContract insertionSort.
Proof.
  split; intros A less l.
  - apply insertionSortBy_Permutation.
  - intros Hswo. apply insertionSortBy_Sorted.
    + intros x y H. now apply negb_true_iff in H.
    + intros x y H. apply negb_false_iff in H.
      now apply StrictWeakOrder_asym.
Qed.



(** ** The claims accessor *)

Lemma fold_left_claimsItems claims acc :
  fold_left (fun jclaims claim => jclaims ++ [claimsItemOf claim]) claims acc
  = acc ++ map claimsItemOf claims.
Proof.
  revert acc. induction claims as [|c claims IH]; intros acc; simpl.
  - now rewrite app_nil_r.
  - rewrite IH. now rewrite <- app_assoc.
Qed.

(** A successful GetClaims returns the items of the claims the index
    appended to an empty list for the owner, sorted by [sort.Sort]. *)
Lemma GetClaims_ok_shape sortSort sh req resp :
  GetClaims sortSort sh req = ok resp ->
  exists fetched,
    index.AppendClaims (index sh) [] (ClaimsRequest.Permanode req)
      (owner sh) (ClaimsRequest.AttrFilter req) = inl fetched
    /\ ClaimsResponse.Claims resp
       = map claimsItemOf (sortSort Claim.t ClaimsByDate_Less fetched).
Proof.
  unfold GetClaims.
  destruct (negb (blob.Valid (ClaimsRequest.Permanode req))); [discriminate|].
  destruct (index.AppendClaims _ _ _ _ _) as [fetched|e]; [|discriminate].
  intros [= <-]. exists fetched. split; [reflexivity|].
  simpl. now rewrite fold_left_claimsItems.
Qed.


Lemma memIndex_filtersBySigner recents withAttr cl edges scanErr :
  filtersBySigner (memIndex recents withAttr cl edges scanErr).
Proof.
  intros dst pn signer attrFilter out. simpl. intros [= <-] c Hin.
  apply in_app_or in Hin as [Hin|Hin]; [now left|right].
  apply List.filter_In in Hin as [_ Hc].
  apply andb_true_iff in Hc as [Hc _].
  apply andb_true_iff in Hc as [_ Hc].
  now apply bool_decide_eq_true in Hc.
Qed.




(** C10. GetClaims asks the index for the claims of the handler's owner
    only: with an index that filters by the signer it is given, every
    claim returned is signed by the owner. *)
Theorem GetClaims_only_owner_claims
    (sortSort : forall A : Type, (A -> A -> bool) -> list A -> list A)
    (sh : Handler.t) (req : ClaimsRequest.t) (resp : ClaimsResponse.t)
    (Hsort : SortContract sortSort)
    (Hix : filtersBySigner (index sh))
    (Hok : GetClaims sortSort sh req = ok resp) :
  (exists fetched,
     index.AppendClaims (index sh) [] (ClaimsRequest.Permanode req)
       (owner sh) (ClaimsRequest.AttrFilter req) = inl fetched
     /\ Permutation (ClaimsResponse.Claims resp) (map claimsItemOf fetched))
  /\ forall item, In item (ClaimsResponse.Claims resp) ->
       ClaimsItem.Signer item = owner sh.
Proof.
  destruct (GetClaims_ok_shape _ _ _ _ Hok) as (fetched & Hidx & Hshape).
  assert (Hperm : Permutation (ClaimsResponse.Claims resp)
                    (map claimsItemOf fetched)).
  { rewrite Hshape. apply Permutation_map, (sort_permutation _ Hsort). }
  split; [exists fetched; auto|].
  intros item Hin. apply (Permutation_in _ Hperm) in Hin.
  apply List.in_map_iff in Hin as (c & <- & Hc). simpl.
  destruct (Hix _ _ _ _ _ Hidx c Hc) as [[]|Hsigner]. exact Hsigner.
Qed.

Lemma GetClaims_only_owner_claims_witness :
  exists resp,
    GetClaims insertionSort (exampleHandler None None) exampleClaimsRequest
    = ok resp
    /\ forall item, In item (ClaimsResponse.Claims resp) ->
         ClaimsItem.Signer item = refOwner.
Proof.
  eexists. split; [reflexivity|].
  apply (GetClaims_only_owner_claims insertionSort (exampleHandler None None)
           exampleClaimsRequest _ insertionSort_contract
           (memIndex_filtersBySigner _ _ _ _ _) eq_refl).
Defined.

(** ** The named-search aliases *)

Example SetNamed_GetNamed_example :
  let w1 := (exampleSetNamed "foo" "is:pano" emptyWorld).1 in
  let w2 := (exampleSetNamed "foo" "tag:cats" w1).1 in
  GetNamedResponse.Substitute <$>
    (match exampleGetNamed w1 "foo" with ok g => Some g | _ => None end)
  = Some "is:pano"
  /\ GetNamedResponse.Substitute <$>
    (match exampleGetNamed w2 "foo" with ok g => Some g | _ => None end)
  = Some "tag:cats"
  /\ permanodes w2 = permanodes w1
  /\ length (permanodes w1) = 1%nat.
Proof. vm_compute. repeat split. Qed.

(** C2. When the substitute text does not parse, SetNamed returns the
    parse error and leaves the world as it was: no blob is stored, no
    permanode and no claim is signed or indexed. *)
Theorem SetNamed_parse_failure_writes_nothing
    (owner : Ref) (sha1 : string -> string)
    (signedJSON : schema.Builder -> Ref -> Time -> string)
    (receiveFault : World -> string -> option error)
    (signFault : World -> schema.Builder -> option error)
    (Constraint : Type) (parseExpression : string -> Constraint + error)
    (logicalB : Constraint -> option Constraint)
    (jsonDecodeConstraint : string -> Constraint + error)
    (queryOrder : World -> list Ref -> list Ref)
    (w : World) (r : SetNamedRequest.t) (e : error)
    (Hparse : evalSearchInput Constraint parseExpression logicalB
                jsonDecodeConstraint (SetNamedRequest.Substitute r) = err e) :
  SetNamed owner sha1 signedJSON receiveFault signFault Constraint
    parseExpression logicalB jsonDecodeConstraint queryOrder r w
  = (w, err e).
Proof.
  unfold SetNamed, bind. now rewrite Hparse.
Qed.

Lemma SetNamed_parse_failure_writes_nothing_witness :
  exampleSetNamed "foo" "bar" emptyWorld
  = (emptyWorld, err "expected operator or predicate, got literal").
Proof.
  apply SetNamed_parse_failure_writes_nothing. reflexivity.
Defined.

(** *** The effect of each step on the world *)

Lemma bind_ok_inv {A B : Type} (c : M A) (k : A -> M B) w w' b :
  bind c k w = (w', ok b) ->
  exists a wm, c w = (wm, ok a) /\ k a wm = (w', ok b).
Proof.
  unfold bind. destruct (c w) as [wm [a|e|e]]; try discriminate.
  intros H. exists a, wm. auto.
Qed.


Lemma blob_Parse_empty : blob_Parse "" = None.
Proof. reflexivity. Qed.

Lemma blobsKept_refl sha1 w : blobsKept sha1 w w.
Proof. intros s H. exact H. Qed.

Lemma blobsKept_trans sha1 w1 w2 w3 :
  blobsKept sha1 w1 w2 -> blobsKept sha1 w2 w3 -> blobsKept sha1 w1 w3.
Proof. intros H12 H23 s H. auto. Qed.

Lemma blobsStay_refl w : blobsStay w w.
Proof. intros h H. exact H. Qed.

Lemma blobsStay_trans w1 w2 w3 :
  blobsStay w1 w2 -> blobsStay w2 w3 -> blobsStay w1 w3.
Proof. intros H12 H23 h H. auto. Qed.

Section Steps.
Variable owner : Ref.
Variable sha1 : string -> string.
Variable signedJSON : schema.Builder -> Ref -> Time -> string.
Variable receiveFault : World -> string -> option error.
Variable signFault : World -> schema.Builder -> option error.
Hypothesis sha1_inj : forall a b, sha1 a = sha1 b -> a = b.

Lemma insert_blobsKept (m : gmap string string) t s :
  m !! sha1 s = Some s -> <[sha1 t := t]> m !! sha1 s = Some s.
Proof using sha1_inj.
  intros H. destruct (decide (sha1 t = sha1 s)) as [E|E].
  - rewrite E, lookup_insert_eq. now rewrite (sha1_inj _ _ E).
  - now rewrite lookup_insert_ne.
Qed.

Lemma receiveString_ok s w w' sref :
  receiveString sha1 receiveFault s w = (w', ok sref) ->
  SizedRef.Ref sref = Sha1Ref (sha1 s)
  /\ blobs w' = <[sha1 s := s]> (blobs w)
  /\ permanodes w' = permanodes w /\ claims w' = claims w
  /\ clock w' = clock w.
Proof using Type.
  unfold receiveString. destruct (receiveFault w s); [discriminate|].
  intros [= <- <-]. simpl. auto.
Qed.

Lemma NewSetAttributeClaim_ok pn attr value w w' b :
  NewSetAttributeClaim pn attr value w = (w', ok b) ->
  b = schema.SetAttributeClaim pn attr value (clock w)
  /\ blobs w' = blobs w /\ permanodes w' = permanodes w
  /\ claims w' = claims w /\ clock w' = clock w + 1.
Proof using Type.
  unfold NewSetAttributeClaim, bind, timeNow, ret. simpl.
  intros [= <- <-]. simpl. auto.
Qed.

Lemma receiveAndSign_claim_ok pn attr value date w w' sref :
  receiveAndSign owner sha1 signedJSON receiveFault signFault
    (schema.SetAttributeClaim pn attr value date) w = (w', ok sref) ->
  exists signed c,
    blobs w' = <[sha1 signed := signed]> (blobs w)
    /\ permanodes w' = permanodes w
    /\ claims w' = claims w ++ [c]
    /\ isSetClaim owner pn attr value c /\ Claim.Date c = date
    /\ clock w' = clock w + 1.
Proof using Type.
  unfold receiveAndSign. intros H.
  apply bind_ok_inv in H as (now & w1 & Hnow & H).
  apply bind_ok_inv in H as (signed & w2 & Hsign & H).
  apply bind_ok_inv in H as (sr & w3 & Hrecv & H).
  apply bind_ok_inv in H as (u & w4 & Hidx & H).
  unfold ret in H. injection H as <- <-.
  unfold timeNow in Hnow. injection Hnow as <- <-.
  unfold sign in Hsign. destruct (signFault _ _); [discriminate|].
  injection Hsign as <- <-.
  apply receiveString_ok in Hrecv as (Hr & Hb & Hp & Hc & Hk).
  unfold indexBlob in Hidx. injection Hidx as <-.
  eexists. eexists. simpl. rewrite Hb, Hp, Hc, Hk. simpl.
  repeat split; reflexivity.
Qed.

Lemma receiveAndSign_permanode_ok random w w' sref :
  receiveAndSign owner sha1 signedJSON receiveFault signFault
    (schema.UnsignedPermanode random) w = (w', ok sref) ->
  exists signed,
    SizedRef.Ref sref = Sha1Ref (sha1 signed)
    /\ blobs w' = <[sha1 signed := signed]> (blobs w)
    /\ permanodes w' = addPermanode (Sha1Ref (sha1 signed)) (permanodes w)
    /\ claims w' = claims w
    /\ clock w' = clock w + 1.
Proof using Type.
  unfold receiveAndSign. intros H.
  apply bind_ok_inv in H as (now & w1 & Hnow & H).
  apply bind_ok_inv in H as (signed & w2 & Hsign & H).
  apply bind_ok_inv in H as (sr & w3 & Hrecv & H).
  apply bind_ok_inv in H as (u & w4 & Hidx & H).
  unfold ret in H. injection H as <- <-.
  unfold timeNow in Hnow. injection Hnow as <- <-.
  unfold sign in Hsign. destruct (signFault _ _); [discriminate|].
  injection Hsign as <- <-.
  apply receiveString_ok in Hrecv as (Hr & Hb & Hp & Hc & Hk).
  unfold indexBlob in Hidx. injection Hidx as <-.
  eexists. simpl. rewrite Hr, Hb, Hp, Hc, Hk. simpl.
  repeat split; reflexivity.
Qed.

End Steps.

(** *** The fold of the claims *)






(** *** GetNamed and SetNamed on a settled alias *)

Section Aliases.
Variable owner : Ref.
Variable sha1 : string -> string.
Variable signedJSON : schema.Builder -> Ref -> Time -> string.
Variable receiveFault : World -> string -> option error.
Variable signFault : World -> schema.Builder -> option error.
Variable Constraint : Type.
Variable parseExpression : string -> Constraint + error.
Variable logicalB : Constraint -> option Constraint.
Variable jsonDecodeConstraint : string -> Constraint + error.
Variable queryOrder : World -> list Ref -> list Ref.
Hypothesis sha1_inj : forall a b, sha1 a = sha1 b -> a = b.
Hypothesis order_members : keepsMembers queryOrder.

Lemma GetNamed_ok_inv w r g :
  GetNamed owner queryOrder w r = ok g ->
  GetNamedResponse.Named g = GetNamedRequest.Named r
  /\ In (GetNamedResponse.PermaRef g)
       (permanodesWithAttrValue w owner "camliNamedSearch"
          (GetNamedRequest.Named r))
  /\ blob_Parse
       (Values_Get (currentAttrs w owner (GetNamedResponse.PermaRef g))
          "camliContent") = Some (GetNamedResponse.SubstRef g)
  /\ Fetch w (GetNamedResponse.SubstRef g)
     = Some (GetNamedResponse.Substitute g).
Proof using order_members.
  unfold GetNamed, Query.
  destruct (queryOrder w _) as [|p rest] eqn:Hq; [discriminate|].
  destruct (blob_Parse _) as [br|] eqn:Hparse; [|discriminate].
  destruct (Fetch w br) as [result|] eqn:Hfetch; [|discriminate].
  intros [= <-]. simpl. repeat split; auto.
  apply (order_members w). rewrite Hq. now left.
Qed.


Lemma GetNamed_none w named :
  permanodesWithAttrValue w owner "camliNamedSearch" named = [] ->
  exists e,
    GetNamed owner queryOrder w {| GetNamedRequest.Named := named |} = err e.
Proof using order_members.
  intros Hnone. unfold GetNamed, Query. simpl. rewrite Hnone.
  destruct (queryOrder w []) as [|q rest] eqn:Hq.
  - eexists. reflexivity.
  - exfalso. apply (order_members w [] q). rewrite Hq. now left.
Qed.

(** What a successful SetNamed has done to the world: the substitute is
    stored, and either the permanode GetNamed found has one new claim,
    or a new permanode has the three claims of a new alias. *)
Lemma SetNamed_ok_effect named s w w1 r1 :
  SetNamed owner sha1 signedJSON receiveFault signFault Constraint
    parseExpression logicalB jsonDecodeConstraint queryOrder
    {| SetNamedRequest.Named := named; SetNamedRequest.Substitute := s |} w
  = (w1, ok r1) ->
  exists wa,
    blobs wa = <[sha1 s := s]> (blobs w)
    /\ permanodes wa = permanodes w /\ claims wa = claims w
    /\ SetNamedResponse.SubstRef r1 = Sha1Ref (sha1 s)
    /\ blobs w1 !! sha1 s = Some s
    /\ ((exists gr c,
           GetNamed owner queryOrder wa {| GetNamedRequest.Named := named |}
           = ok gr
           /\ SetNamedResponse.PermaRef r1 = GetNamedResponse.PermaRef gr
           /\ permanodes w1 = permanodes w
           /\ claims w1 = claims w ++ [c]
           /\ isSetClaim owner (SetNamedResponse.PermaRef r1) "camliContent"
                (blob.String (Sha1Ref (sha1 s))) c
           /\ Claim.Date c = clock w
           /\ clock w1 = clock w + 2)
        \/ (exists e k1 k2 k3,
           GetNamed owner queryOrder wa {| GetNamedRequest.Named := named |}
           = err e
           /\ permanodes w1
              = addPermanode (SetNamedResponse.PermaRef r1) (permanodes w)
           /\ claims w1 = claims w ++ [k1; k2; k3]
           /\ isSetClaim owner (SetNamedResponse.PermaRef r1)
                "camliNamedSearch" named k1
           /\ isSetClaim owner (SetNamedResponse.PermaRef r1) "title"
                (String.append "named:" named) k2
           /\ isSetClaim owner (SetNamedResponse.PermaRef r1) "camliContent"
                (blob.String (Sha1Ref (sha1 s))) k3
           /\ Claim.Date k1 = clock w + 1 /\ Claim.Date k2 = clock w + 2
           /\ Claim.Date k3 = clock w + 3
           /\ clock w1 = clock w + 7)).
Proof using sha1_inj.
  unfold SetNamed. simpl. intros H.
  apply bind_ok_inv in H as (cs & w0 & Heval & H).
  injection Heval as <- _.
  apply bind_ok_inv in H as (ssref & wa & Hrecv & H).
  apply receiveString_ok in Hrecv as (Hsref & Hba & Hpa & Hca & Hka).
  apply bind_ok_inv in H as ([pn builders] & wb & Halias & H).
  apply bind_ok_inv in H as (c3 & wc & Hc3 & H).
  apply bind_ok_inv in H as (u & wd & Hsign & H).
  unfold ret in H. injection H as <- <-. simpl in *.
  apply NewSetAttributeClaim_ok in Hc3 as (-> & Hbc & Hpc & Hcc & Hkc).
  exists wa. rewrite Hsref. repeat (split; [assumption || reflexivity|]).
  assert (Hstored : blobs wa !! sha1 s = Some s).
  { rewrite Hba. apply lookup_insert_eq. }
  unfold aliasPermanode in Halias.
  destruct (GetNamed owner queryOrder wa _) as [gr|e|e] eqn:Hget;
    [| |discriminate].
  - (* the alias exists *)
    injection Halias as <- <- <-. simpl in Hsign.
    apply bind_ok_inv in Hsign as (sr & we & Hs3 & Hret).
    unfold ret in Hret. injection Hret as <-.
    apply receiveAndSign_claim_ok in Hs3
      as (signed & c & Hbe & Hpe & Hce & Hset & Hdate & Hke).
    split.
    + rewrite Hbe. apply insert_blobsKept; [assumption|]. now rewrite Hbc.
    + left. exists gr, c. rewrite Hsref in Hset.
      rewrite Hpe, Hpc, Hpa, Hce, Hcc, Hca, Hke, Hkc, Hka, Hdate, Hka.
      repeat first [assumption | reflexivity | lia | split].
  - (* a new alias *)
    apply bind_ok_inv in Halias as (b & w2 & Hnew & Halias).
    unfold NewUnsignedPermanode in Hnew. injection Hnew as <- <-.
    apply bind_ok_inv in Halias as (pnSRef & w3 & Hpn & Halias).
    apply receiveAndSign_permanode_ok in Hpn
      as (signedP & Hpref & Hb3 & Hp3 & Hc3 & Hk3).
    apply bind_ok_inv in Halias as (c1 & w4 & Hc1 & Halias).
    apply NewSetAttributeClaim_ok in Hc1 as (-> & Hb4 & Hp4 & Hc4 & Hk4).
    apply bind_ok_inv in Halias as (c2 & w5 & Hc2 & Halias).
    apply NewSetAttributeClaim_ok in Hc2 as (-> & Hb5 & Hp5 & Hc5 & Hk5).
    unfold ret in Halias. injection Halias as <- <- <-. simpl in *.
    apply bind_ok_inv in Hsign as (sr1 & w6 & Hs1 & Hsign).
    apply receiveAndSign_claim_ok in Hs1
      as (signed1 & k1 & Hb6 & Hp6 & Hc6 & Hset1 & Hd1 & Hk6).
    apply bind_ok_inv in Hsign as (sr2 & w7 & Hs2 & Hsign).
    apply receiveAndSign_claim_ok in Hs2
      as (signed2 & k2 & Hb7 & Hp7 & Hc7 & Hset2 & Hd2 & Hk7).
    apply bind_ok_inv in Hsign as (sr3 & w8 & Hs3 & Hret).
    apply receiveAndSign_claim_ok in Hs3
      as (signed3 & k3 & Hb8 & Hp8 & Hc8 & Hset3 & Hd3 & Hk8).
    unfold ret in Hret. injection Hret as <-.
    split.
    + rewrite Hb8, Hb7, Hb6, Hbc, Hb5, Hb4, Hb3. simpl.
      repeat apply insert_blobsKept; assumption.
    + right. exists e, k1, k2, k3.
      rewrite Hp8, Hp7, Hp6, Hpc, Hp5, Hp4, Hp3, Hpref. simpl.
      rewrite Hc8, Hc7, Hc6, Hcc, Hc5, Hc4, Hc3. simpl.
      rewrite Hpref in Hset1, Hset2, Hset3. rewrite Hsref in Hset3.
      rewrite Hpa, Hca, <- !app_assoc. simpl.
      rewrite Hk8, Hk7, Hk6, Hkc, Hk5, Hk4, Hk3, Hd1, Hd2, Hd3. simpl.
      rewrite Hk5, Hk4, Hk3. simpl. rewrite ?Hk4, ?Hk3. simpl.
      rewrite ?Hk3. simpl. rewrite Hka.
      repeat first [assumption | reflexivity | lia | split].
Qed.

Lemma candidate_iff w signer attr value p :
  In p (permanodesWithAttrValue w signer attr value)
  <-> In p (permanodes w)
      /\ value ∈ default [] (currentAttrs w signer p !! attr).
Proof using Type.
  unfold permanodesWithAttrValue. rewrite List.filter_In.
  now rewrite bool_decide_eq_true.
Qed.

Lemma In_addPermanode pn l p :
  In p (addPermanode pn l) <-> p = pn \/ In p l.
Proof using Type.
  unfold addPermanode. destruct (bool_decide (pn ∈ l)) eqn:Hin.
  - apply bool_decide_eq_true in Hin. apply list_elem_of_In in Hin.
    split; [now right|]. intros [->|H]; assumption.
  - rewrite in_app_iff. simpl. split.
    + intros [H|[H|[]]]; auto.
    + intros [H|H]; auto.
Qed.




(** *** Every name stays settled *)



Lemma growsBlobs_receiveString s :
  growsBlobs (receiveString sha1 receiveFault s).
Proof using Type.
  intros w w' o. unfold receiveString.
  destruct (receiveFault w s); intros [= <- _].
  - apply blobsStay_refl.
  - intros h Hh. simpl. destruct (decide (sha1 s = h)) as [<-|Hne].
    + rewrite lookup_insert_eq. eauto.
    + now rewrite lookup_insert_ne.
Qed.








End Aliases.



(** ** Live and stale edges *)










(** * Further properties of handler.go *)

(** ** Dispatch *)

Lemma getHandler_no_mutation key fn :
  getHandler !! key = Some fn -> fn <> serveQuery /\ fn <> serveSetNamed.
Proof.
  unfold getHandler. intros H. apply elem_of_list_to_map_2 in H.
  apply list_elem_of_In in H. simpl in H.
  repeat (destruct H as [H|H]; [injection H as _ <-; split; discriminate|]).
  destruct H.
Qed.

Lemma postHandler_endpoints key fn :
  postHandler !! key = Some fn ->
  fn = serveDescribe \/ fn = serveQuery \/ fn = serveSetNamed.
Proof.
  unfold postHandler. intros H. apply elem_of_list_to_map_2 in H.
  apply list_elem_of_In in H. simpl in H.
  repeat (destruct H as [H|H]; [injection H as _ <-; auto|]).
  destruct H.
Qed.

(** A request that counts as a GET is never handed to the query or the
    set-alias endpoint; any other request that is served is a POST and
    goes to one of the three POST endpoints. *)
Theorem ServeHTTP_get_never_mutates
    (IsGet : Request -> bool) (req : Request) (fn : Endpoint)
    (Hserved : ServeHTTP IsGet req = Served fn) :
  (IsGet req = true -> fn <> serveQuery /\ fn <> serveSetNamed)
  /\ (IsGet req = false ->
      Method req = "POST"
      /\ (fn = serveDescribe \/ fn = serveQuery \/ fn = serveSetNamed)).
Proof.
  unfold ServeHTTP, handlersFor in Hserved.
  destruct (IsGet req).
  - split; [intros _|discriminate].
    destruct (getHandler !! _) as [f|] eqn:Hk; [|discriminate].
    injection Hserved as ->. eapply getHandler_no_mutation, Hk.
  - split; [discriminate|intros _].
    destruct (String.eqb (Method req) "POST") eqn:Hm; [|discriminate].
    apply String.eqb_eq in Hm. split; [exact Hm|].
    destruct (postHandler !! _) as [f|] eqn:Hk; [|discriminate].
    injection Hserved as ->. eapply postHandler_endpoints, Hk.
Qed.

Lemma ServeHTTP_get_never_mutates_witness :
  serveRecentPermanodes <> serveQuery
  /\ serveRecentPermanodes <> serveSetNamed.
Proof.
  apply (ServeHTTP_get_never_mutates methodIsGet
           (getRequest "camli/search/recent" []) serveRecentPermanodes
           eq_refl).
  reflexivity.
Defined.

Lemma HasPrefix_append p s : HasPrefix (String.append p s) p = true.
Proof.
  induction p as [|c p IH]; simpl; [reflexivity|].
  now rewrite Ascii.eqb_refl.
Qed.

Lemma dropString_append p s :
  dropString (String.length p) (String.append p s) = s.
Proof. induction p as [|c p IH]; simpl; [reflexivity|exact IH]. Qed.

Lemma TrimPrefix_append p s : TrimPrefix (String.append p s) p = s.
Proof.
  unfold TrimPrefix. now rewrite HasPrefix_append, dropString_append.
Qed.

(** The prefix [camli/search/] of the path suffix is optional: a request
    is routed the same with and without it. *)
Theorem ServeHTTP_prefix_optional
    (IsGet : Request -> bool) (r1 r2 : Request)
    (Hget : IsGet r1 = IsGet r2) (Hmethod : Method r1 = Method r2)
    (Hsuffix : PathSuffix r1 = String.append "camli/search/" (PathSuffix r2))
    (Hbare : HasPrefix (PathSuffix r2) "camli/search/" = false) :
  ServeHTTP IsGet r1 = ServeHTTP IsGet r2.
Proof.
  unfold ServeHTTP, handlersFor. rewrite Hget, Hmethod, Hsuffix.
  rewrite TrimPrefix_append.
  assert (Hsame : TrimPrefix (PathSuffix r2) "camli/search/" = PathSuffix r2).
  { unfold TrimPrefix. now rewrite Hbare. }
  now rewrite Hsame.
Qed.

Lemma ServeHTTP_prefix_optional_witness :
  ServeHTTP methodIsGet (getRequest "camli/search/claims" [])
  = ServeHTTP methodIsGet (getRequest "claims" []).
Proof.
  apply ServeHTTP_prefix_optional; reflexivity.
Defined.

(** ** Sanitizing *)

(** Sanitizing a result count twice is sanitizing it once, and the
    outcome always lies in 1..1000: a count that went through
    [fromHTTP] passes [n] unchanged. *)
Theorem sanitizeNumResults_idempotent (n : Z) :
  sanitizeNumResults (sanitizeNumResults n) = sanitizeNumResults n
  /\ 1 <= sanitizeNumResults n <= 1000.
Proof.
  pose proof (sanitizeNumResults_range n) as Hr. unfold maxResults in Hr.
  split; [|lia]. apply sanitizeNumResults_in_range. lia.
Qed.

Lemma thumbnailSizeStr_fixed Atoi s :
  let v := thumbnailSizeStr Atoi s in
  (if v =? 0 then 0
   else if (v <? minThumbSize) || (v >? maxThumbSize) then defThumbSize
   else v) = v
  /\ (if v =? 0 then 0
      else if v <? minThumbSize then minThumbSize
      else if v >? maxThumbSize then maxThumbSize
      else v) = v.
Proof.
  unfold minThumbSize, maxThumbSize, defThumbSize.
  pose proof (thumbnailSizeStr_range Atoi s) as Hrange.
  generalize dependent (thumbnailSizeStr Atoi s). intros v Hrange. simpl.
  destruct Hrange as [[H0 _]|[_ Hr]].
  - rewrite H0. split; reflexivity.
  - destruct (v =? 0) eqn:E0; [lia|].
    destruct (v <? 25) eqn:E1; [lia|].
    destruct (v >? 800) eqn:E2; [lia|]. split; reflexivity.
Qed.

(** For a request read from an HTTP form, both queries use the size
    [thumbnailSizeStr] reads from the [thumbnails] parameter as it is:
    0 when the parameter is empty, and otherwise a size in 25..800,
    that of the parameter if it is in the range and 50 if not. *)
Theorem thumbnailSize_fromHTTP
    (Atoi : string -> Z * option error)
    (ParseTime3339OrZero : string -> Time) (ParseOrZero : string -> Ref)
    (ToLower : string -> string) (req : Request) :
  let size := thumbnailSizeStr Atoi (FormValue req "thumbnails") in
  RecentRequest.thumbnailSize
    (RecentRequest.fromHTTP Atoi ParseTime3339OrZero req) = size
  /\ (forall wr,
        WithAttrRequest.fromHTTP Atoi ParseOrZero ToLower req = ok wr ->
        WithAttrRequest.thumbnailSize wr = size)
  /\ (FormValue req "thumbnails" = "" -> size = 0)
  /\ (FormValue req "thumbnails" <> "" -> 25 <= size <= 800).
Proof.
  intros size.
  destruct (thumbnailSizeStr_fixed Atoi (FormValue req "thumbnails"))
    as [Hrecent HwithAttr].
  split; [exact Hrecent|]. split; [|split].
  - intros wr. unfold WithAttrRequest.fromHTTP.
    destruct (String.eqb (FormValue req "max") "").
    + intros [= <-]. exact HwithAttr.
    + destruct (Atoi (FormValue req "max")) as [maxR [e|]]; [discriminate|].
      intros [= <-]. exact HwithAttr.
  - intros H. subst size. now rewrite H.
  - intros H.
    destruct (thumbnailSizeStr_range Atoi (FormValue req "thumbnails"))
      as [[_ H0]|[_ Hr]]; [contradiction|exact Hr].
Qed.

(** [WithAttrRequest.fromHTTP] panics exactly when the [max] parameter
    is given and is not a number, and never returns an error; the
    request it returns has a count in 1..1000, the attribute and value
    of the form, and is fuzzy whenever no attribute is given. *)
Theorem WithAttrRequest_fromHTTP_outcome
    (Atoi : string -> Z * option error) (ParseOrZero : string -> Ref)
    (ToLower : string -> string) (req : Request) :
  let r := WithAttrRequest.fromHTTP Atoi ParseOrZero ToLower req in
  ((exists e, r = panic e)
     <-> FormValue req "max" <> ""
         /\ (Atoi (FormValue req "max")).2 <> None)
  /\ (forall e, r <> err e)
  /\ (forall wr, r = ok wr ->
        1 <= WithAttrRequest.N wr <= 1000
        /\ WithAttrRequest.Attr wr = FormValue req "attr"
        /\ WithAttrRequest.Value wr = FormValue req "value"
        /\ (FormValue req "attr" = "" -> WithAttrRequest.Fuzzy wr = true)).
Proof.
  intros r. subst r. unfold WithAttrRequest.fromHTTP, WithAttrRequest.n.
  destruct (String.eqb (FormValue req "max") "") eqn:Hmax.
  - apply String.eqb_eq in Hmax. split; [|split].
    + split; [intros [e H]; discriminate|intros [H _]; contradiction].
    + discriminate.
    + intros wr [= <-]. simpl.
      split; [apply sanitizeNumResults_idempotent|].
      repeat split. intros ->. reflexivity.
  - apply String.eqb_neq in Hmax.
    destruct (Atoi (FormValue req "max")) as [maxR [e|]]; simpl.
    + split; [|split].
      * split; [intros _; split; [exact Hmax|discriminate]|eauto].
      * discriminate.
      * discriminate.
    + split; [|split].
      * split; [intros [e H]; discriminate|intros [_ H]; now destruct H].
      * discriminate.
      * intros wr [= <-]. simpl.
        split; [apply sanitizeNumResults_idempotent|].
        repeat split. intros ->. reflexivity.
Qed.

(** ** The streaming queries *)

Lemma fold_left_recentStep (sent : list RecentPermanode.t) acc :
  fold_left recentStep sent acc
  = (acc.1 ++ map (fun res => (RecentPermanode.Permanode res, 2)) sent,
     acc.2 ++ map recentItemOf sent).
Proof.
  revert acc. induction sent as [|res sent IH]; intros [dr recent]; simpl.
  - now rewrite !app_nil_r.
  - rewrite IH. simpl. now rewrite <- !app_assoc.
Qed.

Lemma fold_left_withAttrStep (sent : list Ref) acc :
  fold_left withAttrStep sent acc
  = (acc.1 ++ map (fun res => (res, 2)) sent,
     acc.2 ++ map withAttrItemOf sent).
Proof.
  revert acc. induction sent as [|res sent IH]; intros [dr withAttr]; simpl.
  - now rewrite !app_nil_r.
  - rewrite IH. simpl. now rewrite <- !app_assoc.
Qed.

(** A successful recent query returns one item per permanode the index
    scan sent, in the order of the scan, and the meta map the describe
    engine gives for exactly these permanodes, each described at depth
    2, with the sanitized thumbnail size. *)
Theorem GetRecentPermanodes_in_scan_order
    (sh : Handler.t) (now : Time) (req : RecentRequest.t)
    (resp : RecentResponse.t)
    (Hok : GetRecentPermanodes sh now req = ok resp) :
  let scan :=
    index.GetRecentPermanodes (index sh) (owner sh) (RecentRequest.n req)
      (if negb (IsZero (RecentRequest.Before req))
       then RecentRequest.Before req else now) in
  scan.2 = None
  /\ RecentResponse.Recent resp = map recentItemOf scan.1
  /\ describe.metaMapThumbs (describer sh)
       (map (fun res => (RecentPermanode.Permanode res, 2)) scan.1)
       (RecentRequest.thumbnailSize req)
     = inl (RecentResponse.Meta resp).
Proof.
  intros scan. unfold GetRecentPermanodes in Hok. fold scan in Hok.
  rewrite fold_left_recentStep in Hok. simpl in Hok.
  destruct scan.2; [discriminate|].
  destruct (describe.metaMapThumbs _ _ _) as [m|e] eqn:Hm; [|discriminate].
  injection Hok as <-. simpl. auto.
Qed.

Lemma GetRecentPermanodes_in_scan_order_witness :
  exists resp,
    GetRecentPermanodes (exampleHandler None None) 100
      {| RecentRequest.N := 10; RecentRequest.Before := 0;
         RecentRequest.ThumbnailSize := 0 |} = ok resp
    /\ RecentResponse.Recent resp = map recentItemOf exampleRecents.
Proof.
  eexists. split; [reflexivity|].
  apply (GetRecentPermanodes_in_scan_order (exampleHandler None None) 100
           {| RecentRequest.N := 10; RecentRequest.Before := 0;
              RecentRequest.ThumbnailSize := 0 |} _ eq_refl).
Defined.

(** The same for the by-attribute query: one item per permanode the
    index search sent, in its order, and the meta map of exactly these
    permanodes. *)
Theorem GetPermanodesWithAttr_in_scan_order
    (sh : Handler.t) (req : WithAttrRequest.t) (resp : WithAttrResponse.t)
    (Hok : GetPermanodesWithAttr sh req = ok resp) :
  let scan :=
    index.SearchPermanodesWithAttr (index sh) (withAttrIndexRequest sh req) in
  scan.2 = None
  /\ WithAttrResponse.WithAttr resp = map withAttrItemOf scan.1
  /\ describe.metaMapThumbs (describer sh)
       (map (fun res => (res, 2)) scan.1)
       (WithAttrRequest.thumbnailSize req)
     = inl (WithAttrResponse.Meta resp).
Proof.
  intros scan. unfold GetPermanodesWithAttr in Hok. fold scan in Hok.
  rewrite fold_left_withAttrStep in Hok. simpl in Hok.
  destruct (describe.metaMapThumbs _ _ _) as [m|e] eqn:Hm; [|discriminate].
  destruct scan.2; [discriminate|].
  injection Hok as <-. simpl. auto.
Qed.

Lemma GetPermanodesWithAttr_in_scan_order_witness :
  exists resp,
    GetPermanodesWithAttr (exampleHandler None None)
      {| WithAttrRequest.N := 10; WithAttrRequest.Signer := ZeroRef;
         WithAttrRequest.Attr := "tag"; WithAttrRequest.Value := "x";
         WithAttrRequest.Fuzzy := false;
         WithAttrRequest.ThumbnailSize := 0 |} = ok resp
    /\ WithAttrResponse.WithAttr resp = map withAttrItemOf [refP; refQ].
Proof.
  eexists. split; [reflexivity|].
  apply (GetPermanodesWithAttr_in_scan_order (exampleHandler None None)
           {| WithAttrRequest.N := 10; WithAttrRequest.Signer := ZeroRef;
              WithAttrRequest.Attr := "tag"; WithAttrRequest.Value := "x";
              WithAttrRequest.Fuzzy := false;
              WithAttrRequest.ThumbnailSize := 0 |} _ eq_refl).
Defined.

(** A by-attribute request without a valid signer is answered as the
    same request for the claims of the handler's owner. *)
Theorem GetPermanodesWithAttr_signer_defaults_to_owner
    (sh : Handler.t) (req : WithAttrRequest.t)
    (Hsigner : blob.Valid (WithAttrRequest.Signer req) = false) :
  GetPermanodesWithAttr sh req
  = GetPermanodesWithAttr sh
      {| WithAttrRequest.N := WithAttrRequest.N req;
         WithAttrRequest.Signer := owner sh;
         WithAttrRequest.Attr := WithAttrRequest.Attr req;
         WithAttrRequest.Value := WithAttrRequest.Value req;
         WithAttrRequest.Fuzzy := WithAttrRequest.Fuzzy req;
         WithAttrRequest.ThumbnailSize := WithAttrRequest.ThumbnailSize req |}.
Proof.
  unfold GetPermanodesWithAttr, withAttrIndexRequest,
    WithAttrRequest.thumbnailSize. simpl. rewrite Hsigner. simpl.
  now destruct (blob.Valid (owner sh)).
Qed.

Lemma GetPermanodesWithAttr_signer_defaults_to_owner_witness :
  GetPermanodesWithAttr (exampleHandler None None)
    {| WithAttrRequest.N := 10; WithAttrRequest.Signer := ZeroRef;
       WithAttrRequest.Attr := "tag"; WithAttrRequest.Value := "x";
       WithAttrRequest.Fuzzy := false; WithAttrRequest.ThumbnailSize := 0 |}
  = GetPermanodesWithAttr (exampleHandler None None)
      {| WithAttrRequest.N := 10; WithAttrRequest.Signer := refOwner;
         WithAttrRequest.Attr := "tag"; WithAttrRequest.Value := "x";
         WithAttrRequest.Fuzzy := false;
         WithAttrRequest.ThumbnailSize := 0 |}.
Proof.
  apply (GetPermanodesWithAttr_signer_defaults_to_owner
           (exampleHandler None None)
           {| WithAttrRequest.N := 10; WithAttrRequest.Signer := ZeroRef;
              WithAttrRequest.Attr := "tag"; WithAttrRequest.Value := "x";
              WithAttrRequest.Fuzzy := false;
              WithAttrRequest.ThumbnailSize := 0 |}).
  reflexivity.
Defined.

(** A recent request without a [Before] time is answered as the same
    request for the permanodes modified before now. *)
Theorem GetRecentPermanodes_before_defaults_to_now
    (sh : Handler.t) (now : Time) (n thumbs : Z) :
  GetRecentPermanodes sh now
    {| RecentRequest.N := n; RecentRequest.Before := 0;
       RecentRequest.ThumbnailSize := thumbs |}
  = GetRecentPermanodes sh now
      {| RecentRequest.N := n; RecentRequest.Before := now;
         RecentRequest.ThumbnailSize := thumbs |}.
Proof.
  unfold GetRecentPermanodes, RecentRequest.n, RecentRequest.thumbnailSize.
  simpl. now destruct (IsZero now).
Qed.

(** ** The claims accessor *)

(** GetClaims never panics.  It succeeds exactly when the permanode is
    valid and the index returns claims; for the zero permanode it
    returns its own error, whatever the index holds. *)
Theorem GetClaims_outcome
    (sortSort : forall A : Type, (A -> A -> bool) -> list A -> list A)
    (sh : Handler.t) (req : ClaimsRequest.t) :
  (forall e, GetClaims sortSort sh req <> panic e)
  /\ ((exists resp, GetClaims sortSort sh req = ok resp)
      <-> blob.Valid (ClaimsRequest.Permanode req) = true
          /\ exists fetched,
               index.AppendClaims (index sh) [] (ClaimsRequest.Permanode req)
                 (owner sh) (ClaimsRequest.AttrFilter req) = inl fetched)
  /\ (ClaimsRequest.Permanode req = ZeroRef ->
      GetClaims sortSort sh req = err "Error getting claims: nil permanode.").
Proof.
  unfold GetClaims.
  destruct (blob.Valid (ClaimsRequest.Permanode req)) eqn:Hvalid; simpl.
  - destruct (index.AppendClaims _ _ _ _ _) as [fetched|e] eqn:Hidx.
    + split; [discriminate|]. split.
      * split; [intros _; eauto|intros _; eauto].
      * intros Hz. rewrite Hz in Hvalid. discriminate.
    + split; [discriminate|]. split.
      * split; [intros [resp H]; discriminate|].
        intros [_ [fetched H]]. discriminate.
      * intros Hz. rewrite Hz in Hvalid. discriminate.
  - split; [discriminate|]. split.
    + split; [intros [resp H]; discriminate|intros [H _]; discriminate].
    + reflexivity.
Qed.

(** ** The edge verifier *)

Lemma verify_err_None isBRA sh toRefStr edge :
  edgeOrError.err (verify isBRA sh toRefStr edge) = None
  <-> exists db,
        describe.DescribeSync (describer sh) (Edge.From edge) = inl db.
Proof.
  unfold verify.
  destruct (describe.DescribeSync (describer sh) (Edge.From edge)) as [db|e];
    simpl.
  - split; eauto.
  - split; [discriminate|]. intros [db H]. discriminate.
Qed.

(** EdgesTo panics exactly when the index lookup fails.  When the index
    answers, EdgesTo succeeds exactly when the source of every raw
    permanode edge can be described, in whatever order the tasks
    finish. *)
Theorem EdgesTo_succeeds_iff
    (isBRA : string -> bool) (completion : list Edge.t -> list Edge.t)
    (sh : Handler.t) (req : EdgesRequest.t)
    (Hfair : fairCompletion completion) :
  (forall e,
     index.EdgesTo (index sh) (EdgesRequest.ToRef req) = inr e ->
     EdgesTo isBRA completion sh req = panic e)
  /\ (forall edges,
     index.EdgesTo (index sh) (EdgesRequest.ToRef req) = inl edges ->
     (forall e, EdgesTo isBRA completion sh req <> panic e)
     /\ ((exists resp, EdgesTo isBRA completion sh req = ok resp)
         <-> forall edge, In edge edges -> isPermanodeEdge edge = true ->
               exists db,
                 describe.DescribeSync (describer sh) (Edge.From edge)
                 = inl db)).
Proof.
  split.
  - intros e Hidx. unfold EdgesTo. now rewrite Hidx.
  - intros edges Hidx. split.
    + intros e. unfold EdgesTo. rewrite Hidx, fold_left_dispatchStep. simpl.
      destruct (fanIn_result
                  (map (verify isBRA sh (blob.String (EdgesRequest.ToRef req)))
                     (completion (List.filter isPermanodeEdge edges)))
                  (map edgeItemOf
                     (List.filter (fun e => negb (isPermanodeEdge e)) edges)))
        as [[kept ->]|[e' ->]]; discriminate.
    + split.
      * intros [resp Hok] edge Hin Hperm.
        destruct (EdgesTo_ok_shape _ _ _ _ _ _ Hidx Hok) as [_ Hall].
        rewrite Forall_forall in Hall.
        apply (verify_err_None isBRA sh
                 (blob.String (EdgesRequest.ToRef req))).
        apply Hall. apply list_elem_of_In, List.in_map.
        apply (Permutation_in _ (Permutation_sym (Hfair _))).
        apply List.filter_In. auto.
      * intros Hdesc. unfold EdgesTo.
        rewrite Hidx, fold_left_dispatchStep. simpl.
        rewrite fanIn_ok; [eauto|].
        apply Forall_forall. intros res Hres.
        apply list_elem_of_In, List.in_map_iff in Hres as (edge & <- & Hin).
        apply (Permutation_in _ (Hfair _)) in Hin.
        apply List.filter_In in Hin as [Hin Hperm].
        apply verify_err_None. auto.
Qed.

Lemma EdgesTo_succeeds_iff_witness :
  (exists resp,
     EdgesTo isMemberAttr (fun tasks => tasks) (exampleHandler None None)
       {| EdgesRequest.ToRef := refT |} = ok resp)
  <-> forall edge, In edge exampleEdges -> isPermanodeEdge edge = true ->
        exists db,
          describe.DescribeSync (describer (exampleHandler None None))
            (Edge.From edge) = inl db.
Proof.
  exact (proj2 (proj2 (EdgesTo_succeeds_iff isMemberAttr
                         (fun tasks => tasks) (exampleHandler None None)
                         {| EdgesRequest.ToRef := refT |}
                         (fun tasks => Permutation_refl tasks))
                  exampleEdges eq_refl)).
Defined.

Lemma filter_all {A : Type} (f : A -> bool) (l : list A) :
  (forall x, In x l -> f x = true) -> List.filter f l = l.
Proof.
  induction l as [|x l IH]; simpl; intros H; [reflexivity|].
  rewrite (H x) by now left. f_equal. apply IH. intros y Hy. apply H.
  now right.
Qed.

Lemma filter_none {A : Type} (f : A -> bool) (l : list A) :
  (forall x, In x l -> f x = false) -> List.filter f l = [].
Proof.
  induction l as [|x l IH]; simpl; intros H; [reflexivity|].
  rewrite (H x) by now left. apply IH. intros y Hy. apply H. now right.
Qed.



Lemma keptEdges_length results :
  (length (keptEdges results) <= length results)%nat.
Proof.
  induction results as [|res results IH]; simpl; [lia|].
  destruct (edgeOrError.edge res); simpl; lia.
Qed.

Lemma filter_split_length {A : Type} (f : A -> bool) (l : list A) :
  (length (List.filter (fun x => negb (f x)) l) + length (List.filter f l)
   = length l)%nat.
Proof.
  induction l as [|x l IH]; simpl; [reflexivity|].
  destruct (f x); simpl; lia.
Qed.

(** A successful EdgesTo echoes the target ref of the request and
    returns no more edges than the index listed. *)
Theorem EdgesTo_returns_at_most_the_raw_edges
    (isBRA : string -> bool) (completion : list Edge.t -> list Edge.t)
    (sh : Handler.t) (req : EdgesRequest.t) (edges : list Edge.t)
    (resp : EdgesResponse.t)
    (Hfair : fairCompletion completion)
    (Hidx : index.EdgesTo (index sh) (EdgesRequest.ToRef req) = inl edges)
    (Hok : EdgesTo isBRA completion sh req = ok resp) :
  EdgesResponse.ToRef resp = EdgesRequest.ToRef req
  /\ (length (EdgesResponse.EdgesTo resp) <= length edges)%nat.
Proof.
  destruct (EdgesTo_ok_shape _ _ _ _ _ _ Hidx Hok) as [Hshape _].
  split.
  - unfold EdgesTo in Hok. rewrite Hidx in Hok.
    destruct (fold_left dispatchStep edges ([], [])) as [items tasks].
    destruct (fanIn _ _); [|discriminate..]. now injection Hok as <-.
  - rewrite Hshape, length_app, length_map.
    pose proof (keptEdges_length
      (map (verify isBRA sh (blob.String (EdgesRequest.ToRef req)))
         (completion (List.filter isPermanodeEdge edges)))) as Hkept.
    rewrite length_map in Hkept.
    rewrite (Permutation_length (Hfair _)) in Hkept.
    pose proof (filter_split_length isPermanodeEdge edges). lia.
Qed.

Lemma EdgesTo_returns_at_most_the_raw_edges_witness :
  exists resp,
    EdgesTo isMemberAttr (fun tasks => tasks) (exampleHandler None None)
      {| EdgesRequest.ToRef := refT |} = ok resp
    /\ EdgesResponse.ToRef resp = refT.
Proof.
  eexists. split; [reflexivity|].
  apply (EdgesTo_returns_at_most_the_raw_edges isMemberAttr
           (fun tasks => tasks) (exampleHandler None None)
           {| EdgesRequest.ToRef := refT |} exampleEdges _
           (fun tasks => Permutation_refl tasks) eq_refl eq_refl).
Defined.

Lemma edgesInIndexOrder_app isBRA sh toRefStr l1 l2 :
  edgesInIndexOrder isBRA sh toRefStr (l1 ++ l2)
  = edgesInIndexOrder isBRA sh toRefStr l1
    ++ edgesInIndexOrder isBRA sh toRefStr l2.
Proof. unfold edgesInIndexOrder. apply flat_map_app. Qed.

Lemma edgesInIndexOrder_others isBRA sh toRefStr l :
  (forall edge, In edge l -> isPermanodeEdge edge = false) ->
  edgesInIndexOrder isBRA sh toRefStr l = map edgeItemOf l.
Proof.
  induction l as [|edge l IH]; simpl; intros H; [reflexivity|].
  change (String.eqb (Edge.FromType edge) "permanode")
    with (isPermanodeEdge edge).
  rewrite (H edge) by now left. simpl. f_equal. apply IH.
  intros e He. apply H. now right.
Qed.

Lemma edgesInIndexOrder_permanodes isBRA sh toRefStr l :
  (forall edge, In edge l -> isPermanodeEdge edge = true) ->
  edgesInIndexOrder isBRA sh toRefStr l
  = keptEdges (map (verify isBRA sh toRefStr) l).
Proof.
  induction l as [|edge l IH]; simpl; intros H; [reflexivity|].
  change (String.eqb (Edge.FromType edge) "permanode")
    with (isPermanodeEdge edge).
  rewrite (H edge) by now left. f_equal. apply IH.
  intros e He. apply H. now right.
Qed.

(** The order of the index is kept after all when the index lists every
    edge that is not from a permanode before the permanode edges and
    the verification tasks finish in the order they were started. *)
Theorem EdgesTo_in_index_order_when_partitioned
    (isBRA : string -> bool) (completion : list Edge.t -> list Edge.t)
    (sh : Handler.t) (req : EdgesRequest.t) (others pns : list Edge.t)
    (resp : EdgesResponse.t)
    (Hidx : index.EdgesTo (index sh) (EdgesRequest.ToRef req)
            = inl (others ++ pns))
    (Hothers : forall edge, In edge others -> isPermanodeEdge edge = false)
    (Hpns : forall edge, In edge pns -> isPermanodeEdge edge = true)
    (Hseq : completion pns = pns)
    (Hok : EdgesTo isBRA completion sh req = ok resp) :
  EdgesResponse.EdgesTo resp
  = edgesInIndexOrder isBRA sh (blob.String (EdgesRequest.ToRef req))
      (others ++ pns).
Proof.
  destruct (EdgesTo_ok_shape _ _ _ _ _ _ Hidx Hok) as [-> _].
  rewrite !List.filter_app.
  rewrite (filter_none isPermanodeEdge others Hothers).
  rewrite (filter_all isPermanodeEdge pns Hpns).
  rewrite (filter_all (fun e => negb (isPermanodeEdge e)) others)
    by (intros e He; now rewrite (Hothers e He)).
  rewrite (filter_none (fun e => negb (isPermanodeEdge e)) pns)
    by (intros e He; now rewrite (Hpns e He)).
  simpl. rewrite app_nil_r, Hseq, edgesInIndexOrder_app.
  rewrite edgesInIndexOrder_others by exact Hothers.
  now rewrite edgesInIndexOrder_permanodes by exact Hpns.
Qed.

Lemma EdgesTo_in_index_order_when_partitioned_witness :
  exists resp,
    EdgesTo isMemberAttr (fun tasks => tasks)
      (exampleEdgesHandler (rev exampleEdges))
      {| EdgesRequest.ToRef := refT |} = ok resp
    /\ EdgesResponse.EdgesTo resp
       = edgesInIndexOrder isMemberAttr
           (exampleEdgesHandler (rev exampleEdges)) (blob.String refT)
           (rev exampleEdges).
Proof.
  eexists. split; [reflexivity|].
  apply (EdgesTo_in_index_order_when_partitioned isMemberAttr
           (fun tasks => tasks) (exampleEdgesHandler (rev exampleEdges))
           {| EdgesRequest.ToRef := refT |}
           [ {| Edge.From := refF; Edge.FromType := "file";
                Edge.To := refT |} ]
           [ {| Edge.From := refP; Edge.FromType := "permanode";
                Edge.To := refT |} ]).
  - reflexivity.
  - intros edge [<-|[]]. reflexivity.
  - intros edge [<-|[]]. reflexivity.
  - reflexivity.
  - reflexivity.
Defined.

(** ** The alias manager *)

Lemma keepsWorld_refl w : keepsWorld w w.
Proof.
  split; [apply blobsStay_refl|]. split; [auto|].
  split; [exists []; now rewrite app_nil_r|lia].
Qed.

Lemma keepsWorld_trans w1 w2 w3 :
  keepsWorld w1 w2 -> keepsWorld w2 w3 -> keepsWorld w1 w3.
Proof.
  intros (Hb1 & Hp1 & [m1 Hc1] & Hk1) (Hb2 & Hp2 & [m2 Hc2] & Hk2).
  split; [eapply blobsStay_trans; eauto|]. split; [auto|].
  split; [|lia]. exists (m1 ++ m2). now rewrite Hc2, Hc1, app_assoc.
Qed.

Lemma appendOnly_ret {A : Type} (a : A) : appendOnly (ret a).
Proof. intros w w' o [= <- _]. apply keepsWorld_refl. Qed.

Lemma appendOnly_bind {A B : Type} (c : M A) (k : A -> M B) :
  appendOnly c -> (forall a, appendOnly (k a)) -> appendOnly (bind c k).
Proof.
  intros Hc Hk w w' o. unfold bind.
  destruct (c w) as [wm [a|e|e]] eqn:Hcw; intros H.
  - eapply keepsWorld_trans; [eapply Hc, Hcw|eapply Hk, H].
  - injection H as <- _. eapply Hc, Hcw.
  - injection H as <- _. eapply Hc, Hcw.
Qed.

Lemma appendOnly_NewSetAttributeClaim pn attr value :
  appendOnly (NewSetAttributeClaim pn attr value).
Proof.
  intros w w' o [= <- _]. split; [intros h Hh; exact Hh|].
  split; [auto|]. split; [exists []; simpl; now rewrite app_nil_r|simpl; lia].
Qed.

Section AppendOnly.
Variable owner : Ref.
Variable sha1 : string -> string.
Variable signedJSON : schema.Builder -> Ref -> Time -> string.
Variable receiveFault : World -> string -> option error.
Variable signFault : World -> schema.Builder -> option error.
Variable Constraint : Type.
Variable parseExpression : string -> Constraint + error.
Variable logicalB : Constraint -> option Constraint.
Variable jsonDecodeConstraint : string -> Constraint + error.
Variable queryOrder : World -> list Ref -> list Ref.

Lemma appendOnly_receiveString s :
  appendOnly (receiveString sha1 receiveFault s).
Proof using Type.
  intros w w' o Hrun. split.
  - eapply growsBlobs_receiveString, Hrun.
  - unfold receiveString in Hrun.
    destruct (receiveFault w s); injection Hrun as <- _; simpl.
    + split; [auto|]. split; [exists []; now rewrite app_nil_r|lia].
    + split; [auto|]. split; [exists []; now rewrite app_nil_r|lia].
Qed.

Lemma appendOnly_receiveAndSign b :
  appendOnly (receiveAndSign owner sha1 signedJSON receiveFault signFault b).
Proof using Type.
  unfold receiveAndSign. apply appendOnly_bind.
  { intros w w' o [= <- _]. split; [intros h Hh; exact Hh|].
    split; [auto|].
    split; [exists []; simpl; now rewrite app_nil_r|simpl; lia]. }
  intros now. apply appendOnly_bind.
  { intros w w' o. unfold sign. destruct (signFault w b);
      intros [= <- _]; apply keepsWorld_refl. }
  intros signed. apply appendOnly_bind; [apply appendOnly_receiveString|].
  intros sref. apply appendOnly_bind; [|intros u; apply appendOnly_ret].
  intros w w' o. unfold indexBlob. destruct b; intros [= <- _].
  - split; [intros h Hh; exact Hh|]. simpl. split.
    + intros p Hp. apply In_addPermanode. now right.
    + split; [exists []; now rewrite app_nil_r|lia].
  - split; [intros h Hh; exact Hh|]. simpl. split; [auto|].
    split; [eauto|lia].
Qed.

Lemma appendOnly_signClaims builders :
  appendOnly
    (signClaims owner sha1 signedJSON receiveFault signFault builders).
Proof using Type.
  induction builders as [|b builders IH]; simpl.
  - apply appendOnly_ret.
  - apply appendOnly_bind; [apply appendOnly_receiveAndSign|].
    intros _. exact IH.
Qed.

Lemma appendOnly_SetNamed r :
  appendOnly
    (SetNamed owner sha1 signedJSON receiveFault signFault Constraint
       parseExpression logicalB jsonDecodeConstraint queryOrder r).
Proof using Type.
  unfold SetNamed. apply appendOnly_bind.
  { intros w w' o [= <- _]. apply keepsWorld_refl. }
  intros _. apply appendOnly_bind; [apply appendOnly_receiveString|].
  intros ssref. apply appendOnly_bind.
  { intros w w' o. unfold aliasPermanode.
    destruct (GetNamed owner queryOrder w _) as [gr|e|e].
    - intros [= <- _]. apply keepsWorld_refl.
    - apply appendOnly_bind.
      { intros w0 w0' o0 [= <- _]. split; [intros h Hh; exact Hh|].
        simpl. split; [auto|].
        split; [exists []; now rewrite app_nil_r|lia]. }
      intros b. apply appendOnly_bind; [apply appendOnly_receiveAndSign|].
      intros pnSRef.
      apply appendOnly_bind; [apply appendOnly_NewSetAttributeClaim|].
      intros c1.
      apply appendOnly_bind; [apply appendOnly_NewSetAttributeClaim|].
      intros c2. apply appendOnly_ret.
    - intros [= <- _]. apply keepsWorld_refl. }
  intros pnClaims.
  apply appendOnly_bind; [apply appendOnly_NewSetAttributeClaim|].
  intros c3. apply appendOnly_bind; [apply appendOnly_signClaims|].
  intros _. apply appendOnly_ret.
Qed.

End AppendOnly.

(** SetNamed only ever adds to the world: whatever it returns, also an
    error after some of its writes, every blob stays stored, every
    permanode stays listed, the claims there were are the first of the
    claims there are, and the clock has not gone back. *)
Theorem SetNamed_append_only
    (owner : Ref) (sha1 : string -> string)
    (signedJSON : schema.Builder -> Ref -> Time -> string)
    (receiveFault : World -> string -> option error)
    (signFault : World -> schema.Builder -> option error)
    (Constraint : Type) (parseExpression : string -> Constraint + error)
    (logicalB : Constraint -> option Constraint)
    (jsonDecodeConstraint : string -> Constraint + error)
    (queryOrder : World -> list Ref -> list Ref)
    (r : SetNamedRequest.t) (w : World) :
  let w' := (SetNamed owner sha1 signedJSON receiveFault signFault Constraint
               parseExpression logicalB jsonDecodeConstraint queryOrder r w).1
  in
  (forall h, is_Some (blobs w !! h) -> is_Some (blobs w' !! h))
  /\ (forall p, In p (permanodes w) -> In p (permanodes w'))
  /\ (exists more, claims w' = claims w ++ more)
  /\ clock w <= clock w'.
Proof.
  intros w'. subst w'.
  destruct (SetNamed owner sha1 signedJSON receiveFault signFault Constraint
              parseExpression logicalB jsonDecodeConstraint queryOrder r w)
    as [w' o] eqn:Hrun.
  exact (appendOnly_SetNamed owner sha1 signedJSON receiveFault signFault
           Constraint parseExpression logicalB jsonDecodeConstraint
           queryOrder r w w' o Hrun).
Qed.

(** The substitute ref an accepted SetNamed returns is the digest of
    the substitute text and leads to the stored text; two accepted
    calls with the same text return the same substitute ref, whatever
    the names and the worlds. *)
Theorem SetNamed_SubstRef_is_digest
    (owner : Ref) (sha1 : string -> string)
    (signedJSON : schema.Builder -> Ref -> Time -> string)
    (receiveFault : World -> string -> option error)
    (signFault : World -> schema.Builder -> option error)
    (Constraint : Type) (parseExpression : string -> Constraint + error)
    (logicalB : Constraint -> option Constraint)
    (jsonDecodeConstraint : string -> Constraint + error)
    (queryOrder : World -> list Ref -> list Ref)
    (sha1_inj : forall a b, sha1 a = sha1 b -> a = b)
    (named s : string) (w w1 : World) (r1 : SetNamedResponse.t)
    (Hset : SetNamed owner sha1 signedJSON receiveFault signFault Constraint
              parseExpression logicalB jsonDecodeConstraint queryOrder
              {| SetNamedRequest.Named := named;
                 SetNamedRequest.Substitute := s |} w
            = (w1, ok r1)) :
  SetNamedResponse.SubstRef r1 = Sha1Ref (sha1 s)
  /\ Fetch w1 (SetNamedResponse.SubstRef r1) = Some s
  /\ forall named' w' w1' r1',
       SetNamed owner sha1 signedJSON receiveFault signFault Constraint
         parseExpression logicalB jsonDecodeConstraint queryOrder
         {| SetNamedRequest.Named := named';
            SetNamedRequest.Substitute := s |} w'
       = (w1', ok r1') ->
       SetNamedResponse.SubstRef r1' = SetNamedResponse.SubstRef r1.
Proof.
  destruct (SetNamed_ok_effect owner sha1 signedJSON receiveFault signFault
              Constraint parseExpression logicalB jsonDecodeConstraint
              queryOrder sha1_inj _ _ _ _ _ Hset)
    as (wa & _ & _ & _ & Hsub & Hstored & _).
  split; [exact Hsub|]. split; [now rewrite Hsub|].
  intros named' w' w1' r1' Hset'.
  destruct (SetNamed_ok_effect owner sha1 signedJSON receiveFault signFault
              Constraint parseExpression logicalB jsonDecodeConstraint
              queryOrder sha1_inj _ _ _ _ _ Hset')
    as (wa' & _ & _ & _ & Hsub' & _).
  congruence.
Qed.

Lemma SetNamed_SubstRef_is_digest_witness :
  SetNamedResponse.SubstRef exampleResponse1 = Sha1Ref "is:pano"
  /\ Fetch exampleWorld1 (SetNamedResponse.SubstRef exampleResponse1)
     = Some "is:pano".
Proof.
  assert (Hset : SetNamed refOwner (fun s => s) exampleSignedJSON noFault
                   noFault string exampleParse Some exampleParse indexOrder
                   {| SetNamedRequest.Named := "foo";
                      SetNamedRequest.Substitute := "is:pano" |} emptyWorld
                 = (exampleWorld1, ok exampleResponse1)).
  { vm_compute. reflexivity. }
  destruct (SetNamed_SubstRef_is_digest refOwner (fun s => s)
              exampleSignedJSON noFault noFault string exampleParse Some
              exampleParse indexOrder (fun a b H => H)
              "foo" "is:pano" emptyWorld exampleWorld1 exampleResponse1 Hset)
    as (H1 & H2 & _).
  split; [exact H1|exact H2].
Defined.



(** When the storage refuses the substitute blob, SetNamed returns the
    storage's error and has written nothing. *)
Theorem SetNamed_storage_failure_writes_nothing
    (owner : Ref) (sha1 : string -> string)
    (signedJSON : schema.Builder -> Ref -> Time -> string)
    (receiveFault : World -> string -> option error)
    (signFault : World -> schema.Builder -> option error)
    (Constraint : Type) (parseExpression : string -> Constraint + error)
    (logicalB : Constraint -> option Constraint)
    (jsonDecodeConstraint : string -> Constraint + error)
    (queryOrder : World -> list Ref -> list Ref)
    (w : World) (r : SetNamedRequest.t) (cs : Constraint) (e : error)
    (Hparse : evalSearchInput Constraint parseExpression logicalB
                jsonDecodeConstraint (SetNamedRequest.Substitute r) = ok cs)
    (Hfault : receiveFault w (SetNamedRequest.Substitute r) = Some e) :
  SetNamed owner sha1 signedJSON receiveFault signFault Constraint
    parseExpression logicalB jsonDecodeConstraint queryOrder r w
  = (w, err e).
Proof.
  unfold SetNamed, bind, receiveString. now rewrite Hparse, Hfault.
Qed.

Lemma SetNamed_storage_failure_writes_nothing_witness :
  SetNamed refOwner (fun s => s) exampleSignedJSON
    (fun _ _ => Some "disk full") noFault string exampleParse Some
    exampleParse indexOrder
    {| SetNamedRequest.Named := "foo";
       SetNamedRequest.Substitute := "is:pano" |} emptyWorld
  = (emptyWorld, err "disk full").
Proof.
  apply (SetNamed_storage_failure_writes_nothing refOwner (fun s => s)
           exampleSignedJSON (fun _ _ => Some "disk full") noFault string
           exampleParse Some exampleParse indexOrder emptyWorld
           {| SetNamedRequest.Named := "foo";
              SetNamedRequest.Substitute := "is:pano" |} "is:pano");
    reflexivity.
Defined.

Lemma HasPrefix_split s p :
  HasPrefix s p = true -> String.append p (dropString (String.length p) s) = s.
Proof.
  revert s. induction p as [|c p IH]; intros s; simpl; [reflexivity|].
  destruct s as [|d s]; [discriminate|].
  destruct (Ascii.eqb c d) eqn:Hc; [|discriminate].
  apply Ascii.eqb_eq in Hc. subst d. intros H.
  change (String c (String.append p (dropString (String.length p) s))
          = String c s).
  f_equal. exact (IH s H).
Qed.

Lemma blob_Parse_Some s br : blob_Parse s = Some br -> blob.String br = s.
Proof.
  unfold blob_Parse. destruct (HasPrefix s "sha1-") eqn:Hp; [|discriminate].
  intros [= <-]. exact (HasPrefix_split s "sha1-" Hp).
Qed.



(** What GetNamed returns is what the index and the storage hold: the
    permanode is listed and carries the name, its [camliContent] is the
    string of the substitute ref, and the substitute is the text stored
    under that ref. *)
Theorem GetNamed_returns_what_is_stored
    (owner : Ref) (queryOrder : World -> list Ref -> list Ref)
    (order_members : keepsMembers queryOrder)
    (w : World) (r : GetNamedRequest.t) (g : GetNamedResponse.t)
    (Hget : GetNamed owner queryOrder w r = ok g) :
  GetNamedResponse.Named g = GetNamedRequest.Named r
  /\ In (GetNamedResponse.PermaRef g) (permanodes w)
  /\ GetNamedRequest.Named r
       ∈ default [] (currentAttrs w owner (GetNamedResponse.PermaRef g)
                       !! "camliNamedSearch")
  /\ Values_Get (currentAttrs w owner (GetNamedResponse.PermaRef g))
       "camliContent" = blob.String (GetNamedResponse.SubstRef g)
  /\ Fetch w (GetNamedResponse.SubstRef g)
     = Some (GetNamedResponse.Substitute g).
Proof.
  destruct (GetNamed_ok_inv owner queryOrder order_members w r g Hget)
    as (Hnamed & Hin & Hparse & Hfetch).
  apply candidate_iff in Hin as [Hin Hval].
  split; [exact Hnamed|]. split; [exact Hin|]. split; [exact Hval|].
  split; [|exact Hfetch]. symmetry. now apply blob_Parse_Some.
Qed.

Lemma GetNamed_returns_what_is_stored_witness :
  Fetch exampleWorld1 (Sha1Ref "is:pano") = Some "is:pano".
Proof.
  assert (Hget : GetNamed refOwner indexOrder exampleWorld1
                   {| GetNamedRequest.Named := "foo" |}
                 = ok {| GetNamedResponse.Named := "foo";
                         GetNamedResponse.Substitute := "is:pano";
                         GetNamedResponse.PermaRef := Sha1Ref "permanode ";
                         GetNamedResponse.SubstRef := Sha1Ref "is:pano" |}).
  { vm_compute. reflexivity. }
  exact (proj2 (proj2 (proj2 (proj2
           (GetNamed_returns_what_is_stored refOwner indexOrder
              (fun w l p => iff_refl _) exampleWorld1
              {| GetNamedRequest.Named := "foo" |} _ Hget))))).
Defined.



(** ** The error EdgesTo returns *)




(** ** GetSignerPaths and serveFiles *)

Lemma fold_left_signerPaths paths acc :
  fold_left (fun jpaths path => jpaths ++ [signerPathsItemOf path]) paths acc
  = acc ++ map signerPathsItemOf paths.
Proof.
  revert acc. induction paths as [|path paths IH]; intros acc; simpl.
  - now rewrite app_nil_r.
  - rewrite IH. now rewrite <- app_assoc.
Qed.

Lemma fold_left_signerPaths_describe (paths : list Path.t) (acc : list (Ref * Z)) :
  fold_left (fun dr path => dr ++ [(Path.Base path, 2)]) paths acc
  = acc ++ map (fun path => (Path.Base path, 2)) paths.
Proof.
  revert acc. induction paths as [|path paths IH]; intros acc; simpl.
  - now rewrite app_nil_r.
  - rewrite IH. now rewrite <- app_assoc.
Qed.

(** GetSignerPaths never panics.  It rejects an invalid signer first and
    an invalid target second, without a look at the index; when it
    succeeds it returns one item per path of the index, in the order
    of the index, and the meta map of the bases of exactly these paths,
    each described at depth 2. *)
Theorem GetSignerPaths_outcome
    (PathsOfSignerTarget : Ref -> Ref -> list Path.t + error)
    (metaMap : list (Ref * Z) -> MetaMap + error)
    (req : SignerPathsRequest.t) :
  let r := GetSignerPaths PathsOfSignerTarget metaMap req in
  (forall e, r <> panic e)
  /\ (blob.Valid (SignerPathsRequest.Signer req) = false ->
      r = err "Error getting signer paths: nil signer.")
  /\ (blob.Valid (SignerPathsRequest.Signer req) = true ->
      blob.Valid (SignerPathsRequest.Target req) = false ->
      r = err "Error getting signer paths: nil target.")
  /\ (forall resp, r = ok resp ->
      exists paths,
        PathsOfSignerTarget (SignerPathsRequest.Signer req)
          (SignerPathsRequest.Target req) = inl paths
        /\ SignerPathsResponse.Paths resp = map signerPathsItemOf paths
        /\ metaMap (map (fun path => (Path.Base path, 2)) paths)
           = inl (SignerPathsResponse.Meta resp)).
Proof.
  intros r. subst r. unfold GetSignerPaths.
  destruct (blob.Valid (SignerPathsRequest.Signer req)); simpl.
  2: { repeat split; try discriminate. }
  destruct (blob.Valid (SignerPathsRequest.Target req)); simpl.
  2: { repeat split; try discriminate. }
  destruct (PathsOfSignerTarget _ _) as [paths|e].
  2: { repeat split; try discriminate. }
  rewrite fold_left_signerPaths, fold_left_signerPaths_describe. simpl.
  destruct (metaMap _) as [m|e] eqn:Hm.
  - repeat split; try discriminate.
    intros resp [= <-]. exists paths. auto.
  - repeat split; try discriminate.
Qed.

(** serveFiles answers with one JSON object that holds either the list
    of files or an error with its type, never both: the type is "input"
    exactly when the [wholedigest] parameter is no blobref and "server"
    when the index fails, and the files are the strings of the refs
    the index returned, in its order. *)
Theorem serveFilesReply_shape
    (ExistingFileSchemas : Ref -> list Ref + error) (req : Request) :
  let ret := serveFilesReply ExistingFileSchemas req in
  (is_Some (ret !! "files") <-> ret !! "error" = None)
  /\ (ret !! "error" = None <-> ret !! "errorType" = None)
  /\ (ret !! "errorType" = Some (jsonString "input")
      <-> blob_Parse (FormValue req "wholedigest") = None)
  /\ (forall br e,
        blob_Parse (FormValue req "wholedigest") = Some br ->
        ExistingFileSchemas br = inr e ->
        ret !! "error" = Some (jsonString e)
        /\ ret !! "errorType" = Some (jsonString "server"))
  /\ (forall br files,
        blob_Parse (FormValue req "wholedigest") = Some br ->
        ExistingFileSchemas br = inl files ->
        ret !! "files" = Some (jsonStrings (map blob.String files))).
Proof.
  intros ret. subst ret. unfold serveFilesReply.
  destruct (blob_Parse (FormValue req "wholedigest")) as [br|].
  - destruct (ExistingFileSchemas br) as [files|e] eqn:Hidx.
    + assert (Hfold : forall acc,
                fold_left (fun strList br => strList ++ [blob.String br])
                  files acc = acc ++ map blob.String files).
      { clear Hidx. induction files as [|f files IH]; intros acc; simpl.
        - now rewrite app_nil_r.
        - rewrite IH. now rewrite <- app_assoc. }
      rewrite Hfold. simpl.
      split; [split; [reflexivity|intros _; rewrite lookup_insert_eq; eauto]|].
      split; [split; reflexivity|].
      split; [split; discriminate|].
      split; [intros br' e [= <-] He; congruence|].
      intros br' files' [= <-] Hf. rewrite Hidx in Hf. injection Hf as <-.
      apply lookup_insert_eq.
    + split.
      { split; [intros [v Hv]; discriminate|].
        rewrite lookup_insert_ne by discriminate.
        rewrite lookup_insert_eq. discriminate. }
      split.
      { rewrite lookup_insert_eq, lookup_insert_ne by discriminate.
        rewrite lookup_insert_eq. split; discriminate. }
      split.
      { rewrite lookup_insert_eq. split; discriminate. }
      split.
      { intros br' e' [= <-] He. rewrite Hidx in He. injection He as <-.
        rewrite lookup_insert_ne by discriminate.
        now rewrite !lookup_insert_eq. }
      intros br' files [= <-] Hf. congruence.
  - split.
    { split; [intros [v Hv]; discriminate|].
      rewrite lookup_insert_ne by discriminate.
      rewrite lookup_insert_eq. discriminate. }
    split.
    { rewrite lookup_insert_eq, lookup_insert_ne by discriminate.
      rewrite lookup_insert_eq. split; discriminate. }
    split.
    { rewrite lookup_insert_eq. split; reflexivity. }
    split; [discriminate|discriminate].
Qed.
